(** * infinite-react-scroll: the windowing engine of [InfiniteScroll]

    A shallow embedding of the [InfiniteScroll] component: its React state,
    the two intersection-observer callbacks, the three fetch effects and the
    render function, followed by the properties of the windowing engine.

    Conventions of the embedding.
    - Offsets, lengths and [size] are JavaScript numbers that hold integers;
      they are modelled in [Z].  [%] is the truncated remainder [Z.rem],
      [Math.max] is [Z.max].
    - [0.2 * size] under [Math.floor] is read as the rational [size / 5];
      [threshold_double_agrees] checks this reading against binary64
      arithmetic on a range of sizes.
    - The scroll adjustment divides, so it is computed on binary64 floats
      (the kernel's primitive floats are JavaScript's numbers).
    - [T[] | undefined] is [option (list T)].
    - The state updates a callback makes are applied together, and then the
      effects run whose dependency changed (React's batched updates). *)

From Stdlib Require Import ZArith List Lia Bool.
From Stdlib Require Import Floats.
Import ListNotations.

Local Open Scope Z_scope.

(** ** JavaScript array primitives *)

Module JS.

Section Arrays.
Context {T : Type}.

(** [a.length] *)
Definition len (a : list T) : Z := Z.of_nat (length a).

(** [x || []] *)
Definition orEmpty (x : option (list T)) : list T :=
  match x with
  | Some a => a
  | None => []
  end.

(** The relative index of [Array.prototype.slice]: a negative argument
    counts from the end, and both ends are clamped to the array. *)
Definition relIndex (n i : Z) : Z :=
  if i <? 0 then Z.max (n + i) 0 else Z.min i n.

(** [a.slice(start, stop)]; [stop = None] is the one-argument call. *)
Definition slice (a : list T) (start : Z) (stop : option Z) : list T :=
  let n := len a in
  let k := relIndex n start in
  let final :=
    match stop with
    | None => n
    | Some e => relIndex n e
    end in
  firstn (Z.to_nat (Z.max (final - k) 0)) (skipn (Z.to_nat k) a).

(** [[0, 1, ..., n-1]], the indices [map] passes to its callback. *)
Definition indices (a : list T) : list Z :=
  map Z.of_nat (seq 0 (length a)).

End Arrays.

End JS.

Import JS.

(** ** The component *)

Section InfiniteScroll.

Context {T : Type}.

(** The props the engine reads: the page size and whether a
    [loaderComponent] was supplied. *)
Variable size : Z.
Variable loaderComponent : bool.

Definition numberOfPagesRendered : Z := 2.
Definition maxNumberOfElements : Z := size * numberOfPagesRendered.

(** The [useState] cells. *)
Record State : Type := mkState {
  prevOffset : Z;
  nextOffset : Z;
  fetchDataForward : bool;
  fetchDataBackward : bool;
  dataFinished : bool;
  data : option (list T);
  loading : bool
}.

Definition initialState : State :=
  mkState 0 0 false false false (Some []) false.

(** The setters; a functional updater [setX (prev => f prev)] is
    [setX (f (x s)) s]. *)
Definition setPrevOffset (v : Z) (s : State) : State :=
  mkState v (nextOffset s) (fetchDataForward s) (fetchDataBackward s)
          (dataFinished s) (data s) (loading s).
Definition setNextOffset (v : Z) (s : State) : State :=
  mkState (prevOffset s) v (fetchDataForward s) (fetchDataBackward s)
          (dataFinished s) (data s) (loading s).
Definition setFetchDataForward (v : bool) (s : State) : State :=
  mkState (prevOffset s) (nextOffset s) v (fetchDataBackward s)
          (dataFinished s) (data s) (loading s).
Definition setFetchDataBackward (v : bool) (s : State) : State :=
  mkState (prevOffset s) (nextOffset s) (fetchDataForward s) v
          (dataFinished s) (data s) (loading s).
Definition setDataFinished (v : bool) (s : State) : State :=
  mkState (prevOffset s) (nextOffset s) (fetchDataForward s)
          (fetchDataBackward s) v (data s) (loading s).
Definition setData (v : option (list T)) (s : State) : State :=
  mkState (prevOffset s) (nextOffset s) (fetchDataForward s)
          (fetchDataBackward s) (dataFinished s) v (loading s).
Definition setLoading (v : bool) (s : State) : State :=
  mkState (prevOffset s) (nextOffset s) (fetchDataForward s)
          (fetchDataBackward s) (dataFinished s) (data s) v.

(** The window as it is shown: [data || []]. *)
Definition window (s : State) : list T := orEmpty (data s).

(** *** Boundary thresholds *)

(** [data?.length || size]: the length, or [size] when the array is
    missing or empty. *)
Definition lengthOrSize (d : option (list T)) : Z :=
  match d with
  | Some a => if len a =? 0 then size else len a
  | None => size
  end.

(** [Math.floor((data?.length || size) - (0.2 * size))] *)
Definition forwardThreshold (d : option (list T)) : Z :=
  (5 * lengthOrSize d - size) / 5.

(** [Math.floor(0.2 * size)] *)
Definition backwardThreshold : Z := size / 5.

(** *** The observer callbacks *)

(** The lower observer, on an intersecting entry. *)
Definition onLowerIntersect (s : State) : State :=
  setFetchDataBackward false
    (setFetchDataForward true
       (setNextOffset (nextOffset s + size) s)).

(** The updater handed to [setPrevOffset] by the upper observer;
    [dataLength] is [data.length] of the callback's closure.  The product
    binds tighter than the subtraction, as in the source. *)
Definition prevOffsetUpdater (dataLength prev : Z) : Z :=
  let modulo := Z.rem dataLength size in
  let newOffset :=
    if modulo =? 0 then prev - size
    else prev - (dataLength - modulo * size) in
  Z.max 0 newOffset.

(** The upper observer, on an intersecting entry. *)
Definition onUpperIntersect (d : list T) (s : State) : State :=
  setFetchDataBackward true
    (setFetchDataForward false
       (setPrevOffset (prevOffsetUpdater (len d) (prevOffset s)) s)).

(** *** The forward fetch effect *)

(** [handleExcessData] of the forward effect: the updater of
    [prevOffset] and the array it returns. *)
Definition handleExcessDataForward (newData : list T) (s : State)
  : State * list T :=
  (setPrevOffset (prevOffset s + (len newData - maxNumberOfElements)) s,
   slice newData (- maxNumberOfElements) None).

(** [moreData?.length! < size]; a comparison with [undefined] is false. *)
Definition fewerThanSize (moreData : option (list T)) : bool :=
  match moreData with
  | Some m => len m <? size
  | None => false
  end.

(** What [fetch] of the forward effect does once [fetchData] has
    resolved with [moreData]; [d] is the [data] of the closure. *)
Definition forwardFetchResolved (d moreData : option (list T)) (s : State)
  : State :=
  let s1 := if fewerThanSize moreData then setDataFinished true s else s in
  let newData := orEmpty d ++ orEmpty moreData in
  let '(s2, limitedData) :=
    if len newData >? maxNumberOfElements
    then handleExcessDataForward newData s1
    else (s1, newData) in
  setFetchDataForward false
    (setData (Some limitedData) (setLoading false s2)).

(** *** The backward fetch effect *)

Definition handleExcessDataBackward (newData : list T) (s : State)
  : State * list T :=
  (setNextOffset (nextOffset s - (len newData - maxNumberOfElements)) s,
   slice newData 0 (Some maxNumberOfElements)).

(** What [fetch] of the backward effect does to the React state once
    [fetchData] has resolved.  With [moreData = undefined] the read
    [moreData!.length] throws after [setData], so
    [setFetchDataBackward(false)] is not reached. *)
Definition backwardFetchResolved (d moreData : option (list T)) (s : State)
  : State :=
  let s1 := setLoading false s in
  let newData := orEmpty moreData ++ orEmpty d in
  let '(s2, limitedData) :=
    if len newData >? maxNumberOfElements
    then handleExcessDataBackward newData s1
    else (s1, newData) in
  let s3 := setData (Some limitedData) s2 in
  match moreData with
  | Some _ => setFetchDataBackward false s3
  | None => s3
  end.

(** *** The effect on [fetchData] *)

Definition resetFetchResolved (result : option (list T)) (s : State)
  : State :=
  setDataFinished false
    (setNextOffset 0
       (setPrevOffset 0
          (setData result (setLoading false s)))).

(** *** Render *)

(** What wraps the element at one index. *)
Inductive Slot : Type :=
| BackwardLoader   (* the loader above the first element *)
| UpperTarget      (* the backward boundary marker *)
| LowerTarget      (* the forward boundary marker *)
| ForwardLoader    (* the loader below the last element *)
| Plain.

Definition Slot_eqb (a b : Slot) : bool :=
  match a, b with
  | BackwardLoader, BackwardLoader
  | UpperTarget, UpperTarget
  | LowerTarget, LowerTarget
  | ForwardLoader, ForwardLoader
  | Plain, Plain => true
  | _, _ => false
  end.

(** The callback of [(data || []).map]. *)
Definition renderAt (s : State) (idx : Z) : Slot :=
  if (idx =? 0) && loaderComponent && loading s && fetchDataBackward s
  then BackwardLoader
  else if (prevOffset s >? 0) && (idx =? backwardThreshold)
  then UpperTarget
  else if (idx =? forwardThreshold (data s)) && negb (dataFinished s)
  then LowerTarget
  else if (idx =? len (window s) - 1) && loaderComponent
          && negb (dataFinished s) && fetchDataForward s
  then ForwardLoader
  else Plain.

(** The component's output: [None] is the bare [loaderComponent]. *)
Definition render (s : State) : option (list Slot) :=
  if negb (fetchDataForward s) && negb (fetchDataBackward s) && loading s
  then None
  else Some (map (renderAt s) (indices (window s))).

(** Whether a marker is part of the output, hence observed. *)
Definition mounted (m : Slot) (s : State) : bool :=
  match render s with
  | Some slots => existsb (Slot_eqb m) slots
  | None => false
  end.

End InfiniteScroll.

(** ** The container: scroll position after a backward fetch *)

Section Container.

Context {T : Type}.
Variable size : Z.

Local Open Scope float_scope.

(** An integer as a JavaScript number (exact below [2^53]). *)
Definition toNumber (z : Z) : float :=
  if (z <? 0)%Z
  then - PrimFloat.of_uint63 (Uint63.of_Z (- z))
  else PrimFloat.of_uint63 (Uint63.of_Z z).

(** What the effects read and write of [containerRef.current]. *)
Record Container : Type := mkContainer {
  scrollTop : float;
  scrollHeight : Z;
  paddingTopZero : bool     (* [style.paddingTop] is ['0px'], not [''] *)
}.

(** [(backwardLoaderComponent.current)?.offsetHeight || 0] *)
Definition loaderComponentHeight (offsetHeight : option Z) : Z :=
  match offsetHeight with
  | Some h => h
  | None => 0%Z
  end.

(** [heightOfSingleElement] *)
Definition heightOfSingleElement (sh loaderH : Z) : float :=
  toNumber (sh - loaderH) / toNumber (maxNumberOfElements size).

(** The right-hand side of [scrollTop += ...]. *)
Definition scrollDelta (sh loaderH fetched : Z) : float :=
  toNumber fetched * heightOfSingleElement sh loaderH - toNumber loaderH.

(** The statements of the backward [fetch] that touch the container,
    after [setData]; [closurePrevOffset] is the [prevOffset] of the
    effect's closure.  [None]: [moreData!.length] threw. *)
Definition backwardFetchContainer (closurePrevOffset : Z)
    (offsetHeight : option Z) (moreData : option (list T)) (c : Container)
  : option Container :=
  match moreData with
  | None => None
  | Some m =>
      let loaderH := loaderComponentHeight offsetHeight in
      Some (mkContainer
              (scrollTop c + scrollDelta (scrollHeight c) loaderH (len m))
              (scrollHeight c)
              (closurePrevOffset >? 0)%Z)
  end.

(** [Math.floor x = k], for an integer [k] read as a number. *)
Definition isFloor (x : float) (k : Z) : bool :=
  PrimFloat.leb (toNumber k) x && PrimFloat.ltb x (toNumber (k + 1)).

(** The arguments of the two [Math.floor] calls, on doubles. *)
Definition forwardThresholdArg (n : Z) : float :=
  toNumber n - 0x1.999999999999ap-3 * toNumber size.
Definition backwardThresholdArg : float :=
  0x1.999999999999ap-3 * toNumber size.

End Container.

(** ** The fetch coordinator: callbacks, effects and outstanding fetches *)

Section Coordinator.

Context {T : Type}.
Variable size : Z.
Variable loaderComponent : bool.

Abbreviation State := (@State T).

Inductive Direction : Type := Initial | Forward | Backward.

(** One call [fetchData(size, offset)] and the effect that made it. *)
Record Call : Type := mkCall {
  callDirection : Direction;
  callSize : Z;
  callOffset : Z
}.

(** An outstanding [fetch]: the effect it belongs to, with the [data]
    its closure holds and the offset it asked for. *)
Inductive Fetch : Type :=
| InitialFetch
| ForwardFetch (d : option (list T)) (offset : Z)
| BackwardFetch (d : option (list T)) (offset : Z).

(** How the promise of [fetchData] settles. *)
Inductive Outcome : Type :=
| Rejected
| Resolved (r : option (list T)).

Record System : Type := mkSystem {
  st : State;
  pending : list Fetch;
  calls : list Call
}.

Inductive Event : Type :=
| SourceChanged                       (* the [fetchData] prop changed *)
| LowerCrossed                        (* the lower target intersects *)
| UpperCrossed                        (* the upper target intersects *)
| Settled (i : nat) (o : Outcome).    (* the [i]-th outstanding fetch settles *)

(** [setLoading(true); fetch()] up to the [await]. *)
Definition issue (dir : Direction) (f : Fetch) (offset : Z) (sys : System)
  : System :=
  mkSystem (setLoading true (st sys))
           (pending sys ++ [f])
           (calls sys ++ [mkCall dir size offset]).

(** The effect on [[nextOffset]]. *)
Definition forwardEffect (old new : State) (sys : System) : System :=
  if negb (nextOffset old =? nextOffset new) && fetchDataForward new
  then issue Forward (ForwardFetch (data new) (nextOffset new))
             (nextOffset new) sys
  else sys.

(** The effect on [[prevOffset]]. *)
Definition backwardEffect (old new : State) (sys : System) : System :=
  if negb (prevOffset old =? prevOffset new) && fetchDataBackward new
  then issue Backward (BackwardFetch (data new) (prevOffset new))
             (prevOffset new) sys
  else sys.

(** A render with the state [new] after one with [old], then the
    effects in the order the component declares them. *)
Definition commit (old new : State) (sys : System) : System :=
  backwardEffect old new
    (forwardEffect old new (mkSystem new (pending sys) (calls sys))).

(** The continuation of a fetch after its [await]. *)
Definition resolved (f : Fetch) (r : option (list T)) (s : State) : State :=
  match f with
  | InitialFetch => resetFetchResolved r s
  | ForwardFetch d _ => forwardFetchResolved size d r s
  | BackwardFetch d _ => backwardFetchResolved size d r s
  end.

Definition removeAt {A : Type} (i : nat) (l : list A) : list A :=
  firstn i l ++ skipn (S i) l.

(** One event.  An observer fires only while its target is mounted; a
    rejected promise ends its [fetch] at the [await]. *)
Definition step (sys : System) (e : Event) : System :=
  let s := st sys in
  match e with
  | SourceChanged => issue Initial InitialFetch 0 sys
  | LowerCrossed =>
      if mounted size loaderComponent LowerTarget s
      then commit s (onLowerIntersect size s) sys
      else sys
  | UpperCrossed =>
      if mounted size loaderComponent UpperTarget s
      then commit s (onUpperIntersect size (window s) s) sys
      else sys
  | Settled i o =>
      match nth_error (pending sys) i with
      | None => sys
      | Some f =>
          let rest := mkSystem s (removeAt i (pending sys)) (calls sys) in
          match o with
          | Rejected => rest
          | Resolved r => commit s (resolved f r s) rest
          end
      end
  end.

Definition run (es : list Event) (sys : System) : System :=
  fold_left step es sys.

(** The component after its first render: the effect on [[fetchData]]
    has asked for the first page. *)
Definition onMount : System :=
  issue Initial InitialFetch 0 (mkSystem initialState [] []).

Definition isForward (c : Call) : bool :=
  match callDirection c with
  | Forward => true
  | _ => false
  end.

(** The calls the forward fetch effect has made. *)
Definition forwardCalls (sys : System) : list Call :=
  filter isForward (calls sys).

(** The event completes a forward or backward merge. *)
Definition isMerge (sys : System) (e : Event) : bool :=
  match e with
  | Settled i (Resolved _) =>
      match nth_error (pending sys) i with
      | Some (ForwardFetch _ _) | Some (BackwardFetch _ _) => true
      | _ => false
      end
  | _ => false
  end.



(** Every merge of the sequence leaves at most [2 * size] elements. *)
Fixpoint boundedAfterMerges (es : list Event) (sys : System) : Prop :=
  match es with
  | [] => True
  | e :: es' =>
      (isMerge sys e = true -> len (window (st (step sys e))) <= 2 * size)
      /\ boundedAfterMerges es' (step sys e)
  end.

(** The coordinator's states, read off the flags as [render] reads
    them: nothing is outstanding when [loading] is false. *)
Inductive FetchState : Type :=
| Idle | FetchingInitial | FetchingForward | FetchingBackward.

Definition fetchState (s : State) : FetchState :=
  if loading s then
    if fetchDataBackward s then FetchingBackward
    else if fetchDataForward s then FetchingForward
    else FetchingInitial
  else Idle.


(** The window a fetch would merge into: the [data] of its closure. *)
Definition closureWindow (f : Fetch) : list T :=
  match f with
  | InitialFetch => []
  | ForwardFetch d _ | BackwardFetch d _ => orEmpty d
  end.

(** The window, and every window held by an outstanding fetch, has at
    most [2 * size] elements. *)
Definition withinCapacity (sys : System) : Prop :=
  len (window (st sys)) <= 2 * size
  /\ Forall (fun f => len (closureWindow f) <= 2 * size) (pending sys).

(** The source keeps its contract: a page holds at most [size] items. *)
Definition conforming (e : Event) : Prop :=
  match e with
  | Settled _ (Resolved (Some m)) => len m <= size
  | _ => True
  end.

End Coordinator.

(** ** Ranges of integers, for checks by computation *)

(** [[lo; lo + 1; ...; lo + n - 1]] *)
Definition zrange (lo : Z) (n : nat) : list Z :=
  map (fun k => lo + Z.of_nat k) (seq 0 n).

(** The adjustment after [count] items of height [h] each were put in
    front, on a container whose [2 * size] elements have that height and
    whose loader is [indicator] high, is [count * h - indicator]. *)
Definition anchorsExactly (size h count indicator : Z) : bool :=
  PrimFloat.eqb
    (scrollDelta size (h * (2 * size) + indicator) indicator count)
    (toNumber (count * h - indicator)).

(** ** A source whose items are their positions *)

(** The window shows the [L] items from position [p] on, [prevOffset]
    is the position of its first item and [nextOffset + size] the
    position after its last. *)
Definition contiguous (size : Z) (s : @State nat) (p L : nat) : Prop :=
  data s = Some (seq p L)
  /\ prevOffset s = Z.of_nat p
  /\ nextOffset s + size = Z.of_nat (p + L).

(** The page the source returns for [fetchData(n, offset)] while it
    holds enough items. *)
Definition fullPage (n : nat) (offset : Z) : list nat :=
  seq (Z.to_nat offset) n.

(** ** Shapes of event sequences *)

Section Traces.

Context {T : Type}.
Variable size : Z.
Variable loaderComponent : bool.

(** The event belongs to forward scrolling: the lower target is crossed,
    or an outstanding forward fetch settles. *)
Definition isForwardEvent (sys : @System T) (e : @Event T) : bool :=
  match e with
  | LowerCrossed => true
  | Settled i _ =>
      match nth_error (pending sys) i with
      | Some (ForwardFetch _ _) => true
      | _ => false
      end
  | _ => false
  end.

(** Every event of the sequence belongs to forward scrolling. *)
Fixpoint forwardOnly (es : list (@Event T)) (sys : @System T) : Prop :=
  match es with
  | [] => True
  | e :: es' =>
      isForwardEvent sys e = true
      /\ forwardOnly es' (step size loaderComponent sys e)
  end.

(** How many crossings of the lower target reach its observer. *)
Fixpoint firedLower (es : list (@Event T)) (sys : @System T) : nat :=
  match es with
  | [] => O
  | e :: es' =>
      ((match e with
        | LowerCrossed =>
            if mounted size loaderComponent LowerTarget (st sys)
            then 1 else 0
        | _ => 0
        end) + firedLower es' (step size loaderComponent sys e))%nat
  end.

(** The offsets of [n] pages after [start]. *)
Definition pagesAfter (start : Z) (n : nat) : list Z :=
  map (fun k => start + Z.of_nat k * size) (seq 1 n).

(** No promise of the sequence rejects. *)
Definition resolves (e : @Event T) : Prop :=
  match e with
  | Settled _ Rejected => False
  | _ => True
  end.

(** When nothing is outstanding, [loading] is down. *)
Definition settledQuiet (sys : @System T) : Prop :=
  pending sys = [] -> loading (st sys) = false.

End Traces.

(** ** The specification's recipes, for comparison *)

Module Spec.

(** [computeNextBackwardOffset] as the specification words it. *)
Definition computeNextBackwardOffset
    (currentPrevOffset windowLength pageSize : Z) : Z :=
  let remainder := windowLength mod pageSize in
  let newOffset :=
    if remainder =? 0 then currentPrevOffset - pageSize
    else currentPrevOffset - (windowLength - remainder) in
  Z.max 0 newOffset.

End Spec.

(** ** A source of 25 items, paged by 10 *)

Module Scenario.

(** [fetchData(sz, off)] of a source that holds the items [0 .. total-1]
    (skip and limit). *)
Definition page (total sz off : Z) : list Z :=
  map Z.of_nat
    (seq (Z.to_nat off) (Z.to_nat (Z.min sz (Z.max 0 (total - off))))).

Definition fetchData : Z -> Z -> option (list Z) :=
  fun sz off => Some (page 25 sz off).

(** The first page is shown. *)
Definition firstPage : @System Z :=
  run 10 true [Settled 0 (Resolved (fetchData 10 0))] (onMount 10).

(** The lower target was crossed twice in a row: two forward fetches are
    outstanding, both holding the window of ten items. *)
Definition twoOutstanding : @System Z :=
  run 10 true [LowerCrossed; LowerCrossed] firstPage.

(** Two pages are shown and the third is asked for. *)
Definition thirdPageAsked : @System Z :=
  run 10 true
    [LowerCrossed; Settled 0 (Resolved (fetchData 10 10)); LowerCrossed]
    firstPage.


(** The whole walk of the end-to-end scenario. *)
Definition walk : list (@Event Z) :=
  [Settled 0 (Resolved (fetchData 10 0));
   LowerCrossed; Settled 0 (Resolved (fetchData 10 10));
   LowerCrossed; Settled 0 (Resolved (fetchData 10 20));
   LowerCrossed; LowerCrossed].

(** A walk that ends on a window of 13 items with [prevOffset = 10]:
    the second of two overlapping forward fetches resolves last, with
    three items, into the window of ten its closure holds. *)
Definition overlapping : list (@Event Z) :=
  [LowerCrossed; LowerCrossed;
   Settled 0 (Resolved (Some (page 40 10 10)));
   LowerCrossed;
   Settled 1 (Resolved (Some (page 40 10 30)));
   Settled 0 (Resolved (Some (page 23 10 20)))].

End Scenario.

(** ** More walks over the same source *)

Module Tour.

Import Scenario.

(** Forward scrolling from the first page: the page at offset 10 is
    asked for and rejects, the page at offset 20 resolves. *)
Definition forwardWalk : list (@Event Z) :=
  [LowerCrossed; Settled 0 Rejected;
   LowerCrossed; Settled 0 (Resolved (fetchData 10 20))].

(** The end of the end-to-end walk: items 5 to 24, [prevOffset = 5]. *)
Definition exhaustedEnd : @System Z := run 10 true walk (onMount 10).


(** The first page of a source of positions, with consistent offsets. *)
Definition firstSlice : @State nat :=
  setData (Some (seq 0 10)) initialState.

(** The items 10 to 29 of it, with consistent offsets. *)
Definition secondSlice : @State nat :=
  setNextOffset 20 (setPrevOffset 10 (setData (Some (seq 10 20)) initialState)).

(** The items 5 to 24 of it after a last page of five items. *)
Definition shortSlice : @State nat :=
  setNextOffset 20 (setPrevOffset 5 (setData (Some (seq 5 20)) initialState)).

End Tour.

(** * Properties *)

(** ** Arrays *)

Section ArrayFacts.

Context {T : Type}.
Implicit Types a b : list T.

Lemma len_nonneg a : 0 <= len a.
Proof. unfold len. lia. Qed.

Lemma len_app a b : len (a ++ b) = len a + len b.
Proof. unfold len. rewrite length_app. lia. Qed.

(** [a.slice(-m)] keeps the last [m] elements. *)
Lemma slice_last a m :
  0 < m <= len a ->
  slice a (- m) None = skipn (Z.to_nat (len a - m)) a.
Proof.
  intros Hm. unfold slice, relIndex.
  assert (Hneg : (- m <? 0) = true) by (apply Z.ltb_lt; lia).
  rewrite Hneg.
  replace (Z.max (len a + - m) 0) with (len a - m) by lia.
  apply firstn_all2. rewrite length_skipn. unfold len in *. lia.
Qed.

(** [a.slice(-0)] is [a.slice(0)]: the whole array. *)
Lemma slice_minus_zero a : slice a (- 0) None = a.
Proof.
  unfold slice, relIndex. simpl.
  replace (Z.min 0 (len a)) with 0 by (pose proof (len_nonneg a); lia).
  simpl. apply firstn_all2. unfold len. lia.
Qed.

(** [a.slice(0, m)] keeps the first [m] elements. *)
Lemma slice_first a m :
  0 <= m ->
  slice a 0 (Some m) = firstn (Z.to_nat m) a.
Proof.
  intros Hm. unfold slice, relIndex. simpl.
  assert (Hpos : (m <? 0) = false) by (apply Z.ltb_ge; lia).
  rewrite Hpos.
  replace (Z.min 0 (len a)) with 0 by (pose proof (len_nonneg a); lia).
  simpl. rewrite Z.sub_0_r.
  destruct (Z.le_ge_cases m (len a)) as [Hle | Hge].
  - now replace (Z.max (Z.min m (len a)) 0) with m by lia.
  - replace (Z.max (Z.min m (len a)) 0) with (len a)
      by (pose proof (len_nonneg a); lia).
    unfold len in *. rewrite !firstn_all2 by lia. reflexivity.
Qed.

Lemma len_skipn a n :
  0 <= n <= len a -> len (skipn (Z.to_nat n) a) = len a - n.
Proof. intros Hn. unfold len in *. rewrite length_skipn. lia. Qed.

Lemma len_firstn a n :
  0 <= n <= len a -> len (firstn (Z.to_nat n) a) = n.
Proof. intros Hn. unfold len in *. rewrite length_firstn. lia. Qed.

End ArrayFacts.

(** ** The window manager: merging and trimming *)

Section WindowManager.

Context {T : Type}.
Variable size : Z.
Hypothesis size_pos : 0 < size.

Implicit Types (d moreData : option (list T)) (s : @State T).

Lemma maxNumberOfElements_eq : maxNumberOfElements size = 2 * size.
Proof. unfold maxNumberOfElements, numberOfPagesRendered. lia. Qed.

(** The forward merge spelled out on its two branches. *)
Lemma forwardFetchResolved_trim d moreData s :
  let newData := orEmpty d ++ orEmpty moreData in
  2 * size < len newData ->
  forwardFetchResolved size d moreData s =
  setFetchDataForward false
    (setData (Some (skipn (Z.to_nat (len newData - 2 * size)) newData))
       (setLoading false
          (setPrevOffset
             (prevOffset s + (len newData - 2 * size))
             (if fewerThanSize size moreData
              then setDataFinished true s else s)))).
Proof.
  intros newData Hlong. unfold forwardFetchResolved. fold newData.
  rewrite maxNumberOfElements_eq.
  assert (Hgt : (len newData >? 2 * size) = true) by (apply Z.gtb_lt; lia).
  rewrite Hgt. unfold handleExcessDataForward.
  rewrite maxNumberOfElements_eq, slice_last by lia.
  destruct (fewerThanSize size moreData); reflexivity.
Qed.

Lemma forwardFetchResolved_keep d moreData s :
  let newData := orEmpty d ++ orEmpty moreData in
  len newData <= 2 * size ->
  forwardFetchResolved size d moreData s =
  setFetchDataForward false
    (setData (Some newData)
       (setLoading false
          (if fewerThanSize size moreData
           then setDataFinished true s else s))).
Proof.
  intros newData Hshort. unfold forwardFetchResolved. fold newData.
  rewrite maxNumberOfElements_eq.
  assert (Hle : (len newData >? 2 * size) = false).
  { rewrite Z.gtb_ltb. apply Z.ltb_ge. lia. }
  now rewrite Hle.
Qed.

(** The backward merge spelled out on its two branches. *)
Lemma backwardFetchResolved_data_trim d moreData s :
  let newData := orEmpty moreData ++ orEmpty d in
  2 * size < len newData ->
  data (backwardFetchResolved size d moreData s)
    = Some (firstn (Z.to_nat (2 * size)) newData)
  /\ nextOffset (backwardFetchResolved size d moreData s)
    = nextOffset s - (len newData - 2 * size)
  /\ prevOffset (backwardFetchResolved size d moreData s) = prevOffset s
  /\ dataFinished (backwardFetchResolved size d moreData s)
    = dataFinished s.
Proof.
  intros newData Hlong. unfold backwardFetchResolved. fold newData.
  rewrite maxNumberOfElements_eq.
  assert (Hgt : (len newData >? 2 * size) = true) by (apply Z.gtb_lt; lia).
  rewrite Hgt. unfold handleExcessDataBackward.
  rewrite maxNumberOfElements_eq, slice_first by lia.
  destruct moreData; simpl; auto.
Qed.

Lemma backwardFetchResolved_data_keep d moreData s :
  let newData := orEmpty moreData ++ orEmpty d in
  len newData <= 2 * size ->
  data (backwardFetchResolved size d moreData s) = Some newData
  /\ nextOffset (backwardFetchResolved size d moreData s) = nextOffset s
  /\ prevOffset (backwardFetchResolved size d moreData s) = prevOffset s
  /\ dataFinished (backwardFetchResolved size d moreData s)
    = dataFinished s.
Proof.
  intros newData Hshort. unfold backwardFetchResolved. fold newData.
  rewrite maxNumberOfElements_eq.
  assert (Hle : (len newData >? 2 * size) = false).
  { rewrite Z.gtb_ltb. apply Z.ltb_ge. lia. }
  rewrite Hle. destruct moreData; simpl; auto.
Qed.

(** Either merge stores at most [2 * size] elements, whatever window
    its closure holds. *)
Lemma forwardFetchResolved_bound d moreData s :
  len (window (forwardFetchResolved size d moreData s)) <= 2 * size.
Proof.
  set (newData := orEmpty d ++ orEmpty moreData).
  destruct (Z.lt_ge_cases (2 * size) (len newData)) as [Hlong | Hshort].
  - rewrite forwardFetchResolved_trim by exact Hlong. fold newData.
    unfold window. cbn [orEmpty data setFetchDataForward setData].
    rewrite len_skipn; lia.
  - rewrite forwardFetchResolved_keep by exact Hshort. fold newData.
    unfold window. simpl. exact Hshort.
Qed.

Lemma backwardFetchResolved_bound d moreData s :
  len (window (backwardFetchResolved size d moreData s)) <= 2 * size.
Proof.
  set (newData := orEmpty moreData ++ orEmpty d).
  destruct (Z.lt_ge_cases (2 * size) (len newData)) as [Hlong | Hshort].
  - destruct (backwardFetchResolved_data_trim d moreData s Hlong)
      as [Hdata _].
    unfold window. rewrite Hdata. fold newData. cbn [orEmpty].
    rewrite len_firstn; lia.
  - destruct (backwardFetchResolved_data_keep d moreData s Hshort)
      as [Hdata _].
    unfold window. rewrite Hdata. exact Hshort.
Qed.

End WindowManager.

Section Trimming.

Context {T : Type}.
Variable size : Z.
Hypothesis size_pos : 0 < size.

Implicit Types (d moreData : option (list T)) (s : @State T).

(** C4.  A forward merge appends the fetched items to the window of its
    closure.  When the result is longer than [2 * size], exactly the
    leading [excess = length - 2 * size] items are dropped, the trailing
    [2 * size] items stay in order and [prevOffset] grows by [excess];
    otherwise the window is the old one followed by the fetched items and
    [prevOffset] is unchanged. *)
Theorem forward_merge_trims_leading_excess d moreData s :
  let newData := orEmpty d ++ orEmpty moreData in
  let s' := forwardFetchResolved size d moreData s in
  let excess := len newData - 2 * size in
  (2 * size < len newData ->
     exists dropped kept,
       newData = dropped ++ kept
       /\ len dropped = excess
       /\ len kept = 2 * size
       /\ data s' = Some kept
       /\ prevOffset s' = prevOffset s + excess)
  /\ (len newData <= 2 * size ->
        data s' = Some (orEmpty d ++ orEmpty moreData)
        /\ prevOffset s' = prevOffset s).
Proof.
  intros newData s' excess. split.
  - intros Hlong.
    exists (firstn (Z.to_nat excess) newData),
           (skipn (Z.to_nat excess) newData).
    assert (Hrange : 0 <= excess <= len newData).
    { unfold excess. pose proof (len_nonneg newData). lia. }
    split; [symmetry; apply firstn_skipn |].
    split; [now apply len_firstn |].
    split; [rewrite len_skipn by exact Hrange; unfold excess; lia |].
    unfold s'. rewrite forwardFetchResolved_trim by (exact size_pos || exact Hlong).
    fold newData excess.
    destruct (fewerThanSize size moreData); split; reflexivity.
  - intros Hshort. unfold s'.
    rewrite forwardFetchResolved_keep by (exact size_pos || exact Hshort).
    destruct (fewerThanSize size moreData); split; reflexivity.
Qed.

(** C5.  A backward merge puts the fetched items in front of the window
    of its closure.  When the result is longer than [2 * size], exactly the
    trailing [excess] items are dropped, the leading [2 * size] items stay
    in order and [nextOffset] shrinks by [excess]; otherwise the window is
    the fetched items followed by the old one and [nextOffset] is
    unchanged. *)
Theorem backward_merge_trims_trailing_excess d moreData s :
  let newData := orEmpty moreData ++ orEmpty d in
  let s' := backwardFetchResolved size d moreData s in
  let excess := len newData - 2 * size in
  (2 * size < len newData ->
     exists kept dropped,
       newData = kept ++ dropped
       /\ len dropped = excess
       /\ len kept = 2 * size
       /\ data s' = Some kept
       /\ nextOffset s' = nextOffset s - excess)
  /\ (len newData <= 2 * size ->
        data s' = Some (orEmpty moreData ++ orEmpty d)
        /\ nextOffset s' = nextOffset s).
Proof.
  intros newData s' excess. split.
  - intros Hlong.
    exists (firstn (Z.to_nat (2 * size)) newData),
           (skipn (Z.to_nat (2 * size)) newData).
    assert (Hrange : 0 <= 2 * size <= len newData) by lia.
    destruct (backwardFetchResolved_data_trim size size_pos d moreData s Hlong)
      as (Hdata & Hnext & _).
    split; [symmetry; apply firstn_skipn |].
    split; [rewrite len_skipn by exact Hrange; reflexivity |].
    split; [now apply len_firstn |].
    split; [exact Hdata | exact Hnext].
  - intros Hshort.
    destruct (backwardFetchResolved_data_keep size d moreData s Hshort)
      as (Hdata & Hnext & _).
    split; [exact Hdata | exact Hnext].
Qed.

End Trimming.

(** ** The coordinator *)

Section CoordinatorFacts.

Context {T : Type}.
Variable size : Z.
Variable loaderComponent : bool.

Abbreviation Sys := (@System T).

Implicit Types (s old new : @State T) (sys : Sys) (f : @Fetch T).

(** Issuing a fetch touches [loading] only. *)
Lemma issue_st dir f off sys :
  st (issue size dir f off sys) = setLoading true (st sys).
Proof. reflexivity. Qed.

(** After a commit the state is the rendered one, but for [loading]. *)
Lemma commit_st old new sys :
  st (commit size old new sys) = new
  \/ st (commit size old new sys) = setLoading true new.
Proof.
  unfold commit, backwardEffect, forwardEffect.
  destruct (negb (nextOffset old =? nextOffset new) && fetchDataForward new);
    destruct (negb (prevOffset old =? prevOffset new) && fetchDataBackward new);
    cbn; auto.
Qed.

(** A commit that changes neither offset runs no fetch effect. *)
Lemma commit_same_offsets old new sys :
  nextOffset old = nextOffset new ->
  prevOffset old = prevOffset new ->
  commit size old new sys = mkSystem new (pending sys) (calls sys).
Proof.
  intros Hn Hp. unfold commit, backwardEffect, forwardEffect.
  rewrite Hn, Hp, !Z.eqb_refl. reflexivity.
Qed.

Lemma forwardCalls_app (cs : list Call) (c : Call) :
  filter isForward (cs ++ [c])
  = filter isForward cs ++ (if isForward c then [c] else []).
Proof. rewrite filter_app. reflexivity. Qed.

(** A commit asks for a forward page only when [nextOffset] moved while
    [fetchDataForward] is set. *)
Lemma commit_forwardCalls old new sys :
  fetchDataForward new = false \/ nextOffset old = nextOffset new ->
  forwardCalls (commit size old new sys) = forwardCalls sys.
Proof.
  intros Hquiet. unfold commit, forwardEffect.
  assert (Hcond :
    negb (nextOffset old =? nextOffset new) && fetchDataForward new = false).
  { destruct Hquiet as [Hf | Hn].
    - rewrite Hf. apply andb_false_r.
    - rewrite Hn, Z.eqb_refl. reflexivity. }
  rewrite Hcond. unfold backwardEffect.
  destruct (negb (prevOffset old =? prevOffset new) && fetchDataBackward new);
    [| reflexivity].
  unfold forwardCalls, issue. cbn [calls].
  rewrite forwardCalls_app. cbn. apply app_nil_r.
Qed.

(** The lower target is never rendered once [dataFinished] is set. *)
Lemma renderAt_finished s idx :
  dataFinished s = true ->
  Slot_eqb LowerTarget (renderAt size loaderComponent s idx) = false.
Proof.
  intros Hfin. unfold renderAt. rewrite Hfin.
  destruct ((idx =? 0) && loaderComponent && loading s && fetchDataBackward s);
    [reflexivity |].
  destruct ((prevOffset s >? 0) && (idx =? backwardThreshold size));
    [reflexivity |].
  rewrite andb_false_r. cbn [negb]. rewrite !andb_false_r, andb_false_l.
  reflexivity.
Qed.

Lemma existsb_map_false {A B : Type} (p : B -> bool) (g : A -> B) (l : list A) :
  (forall x, p (g x) = false) -> existsb p (map g l) = false.
Proof.
  intros Hp. induction l as [| x l IH]; cbn; [reflexivity |].
  now rewrite Hp, IH.
Qed.

Lemma lowerTarget_unmounted s :
  dataFinished s = true ->
  mounted size loaderComponent LowerTarget s = false.
Proof.
  intros Hfin. unfold mounted, render.
  destruct (negb (fetchDataForward s) && negb (fetchDataBackward s) && loading s);
    [reflexivity |].
  apply existsb_map_false. intros idx. now apply renderAt_finished.
Qed.

End CoordinatorFacts.

Section HandlerFacts.

Context {T : Type}.
Variable size : Z.

Implicit Types (d moreData : option (list T)) (s : @State T).

(** What the forward continuation does to the cells other than [data]
    and [prevOffset]. *)
Lemma forwardFetchResolved_cells d moreData s :
  let s' := forwardFetchResolved size d moreData s in
  fetchDataForward s' = false
  /\ fetchDataBackward s' = fetchDataBackward s
  /\ loading s' = false
  /\ nextOffset s' = nextOffset s
  /\ dataFinished s' = (fewerThanSize size moreData || dataFinished s).
Proof.
  unfold forwardFetchResolved.
  destruct (fewerThanSize size moreData);
    destruct (len (orEmpty d ++ orEmpty moreData) >? maxNumberOfElements size);
    cbn; auto.
Qed.

(** What the backward continuation does to the cells other than [data]
    and [nextOffset]. *)
Lemma backwardFetchResolved_cells d moreData s :
  let s' := backwardFetchResolved size d moreData s in
  fetchDataForward s' = fetchDataForward s
  /\ loading s' = false
  /\ prevOffset s' = prevOffset s
  /\ dataFinished s' = dataFinished s.
Proof.
  unfold backwardFetchResolved.
  destruct moreData;
    destruct (len (orEmpty _ ++ orEmpty d) >? maxNumberOfElements size);
    cbn; auto.
Qed.

End HandlerFacts.

Section Exhaustion.

Context {T : Type}.
Variable size : Z.
Variable loaderComponent : bool.

Abbreviation step1 := (@step T size loaderComponent).
Abbreviation runAll := (@run T size loaderComponent).

Implicit Types (s old new : @State T) (sys : @System T) (e : @Event T).





End Exhaustion.

Section Capacity.

Context {T : Type}.
Variable size : Z.
Variable loaderComponent : bool.
Hypothesis size_pos : 0 < size.

Abbreviation stepC := (@step T size loaderComponent).
Abbreviation runC := (@run T size loaderComponent).

Implicit Types (s old new : @State T) (sys : @System T) (e : @Event T).

Lemma window_setLoading b s : window (setLoading b s) = window s.
Proof. reflexivity. Qed.

Lemma commit_window old new sys :
  window (st (commit size old new sys)) = window new.
Proof.
  destruct (commit_st size old new sys) as [Hst | Hst]; now rewrite Hst.
Qed.

(** The continuation of a forward or backward fetch stores a window of
    at most [2 * size] elements. *)
Lemma resolved_bound f r s :
  f <> InitialFetch ->
  len (window (resolved size f r s)) <= 2 * size.
Proof.
  intros Hf. destruct f as [| d off | d off]; cbn [resolved].
  - contradiction.
  - now apply forwardFetchResolved_bound.
  - now apply backwardFetchResolved_bound.
Qed.

Lemma step_merge_bound sys e :
  isMerge sys e = true ->
  len (window (st (stepC sys e))) <= 2 * size.
Proof.
  destruct e as [| | | i [| r]]; cbn [isMerge]; try discriminate.
  cbn [step].
  destruct (nth_error (pending sys) i) as [f |]; [| discriminate].
  intros Hmerge. rewrite commit_window. apply resolved_bound.
  intros ->. discriminate.
Qed.

(** C2.  Over every sequence of events, whatever the state it starts
    from, each forward or backward merge that completes stores a window
    of at most [2 * size] elements. *)
Theorem window_bound_after_every_merge es : forall sys,
  boundedAfterMerges size loaderComponent es sys.
Proof.
  induction es as [| e es IH]; intros sys; cbn [boundedAfterMerges].
  - exact I.
  - split; [apply step_merge_bound | apply IH].
Qed.

(** *** The window stays within capacity at rest *)

Lemma Forall_removeAt {A : Type} (P : A -> Prop) (i : nat) (l : list A) :
  Forall P l -> Forall P (removeAt i l).
Proof.
  intros Hall. unfold removeAt. rewrite Forall_forall in *.
  intros x Hin. apply Hall. apply in_app_or in Hin.
  destruct Hin as [Hin | Hin].
  - rewrite <- (firstn_skipn i l). apply in_or_app. now left.
  - rewrite <- (firstn_skipn (S i) l). apply in_or_app. now right.
Qed.

Lemma commit_withinCapacity old new sys :
  len (window new) <= 2 * size ->
  Forall (fun f => len (closureWindow f) <= 2 * size) (pending sys) ->
  withinCapacity size (commit size old new sys).
Proof.
  intros Hnew Hpending. split; [now rewrite commit_window |].
  unfold commit, backwardEffect, forwardEffect.
  destruct (negb (nextOffset old =? nextOffset new) && fetchDataForward new);
    destruct (negb (prevOffset old =? prevOffset new) && fetchDataBackward new);
    cbn [pending issue];
    repeat (apply Forall_app; split); trivial;
    now constructor.
Qed.

Lemma step_withinCapacity sys e :
  conforming size e ->
  withinCapacity size sys ->
  withinCapacity size (stepC sys e).
Proof.
  intros Hconf [Hwin Hpending]. destruct e as [| | | i o]; cbn [step].
  - split; [exact Hwin |]. cbn [pending issue].
    apply Forall_app. split; [exact Hpending |].
    constructor; [unfold len; cbn [closureWindow length]; lia | constructor].
  - destruct (mounted size loaderComponent LowerTarget (st sys));
      [now apply commit_withinCapacity | now split].
  - destruct (mounted size loaderComponent UpperTarget (st sys));
      [now apply commit_withinCapacity | now split].
  - destruct (nth_error (pending sys) i) as [f |] eqn:Hf; [| now split].
    pose proof (Forall_removeAt _ i _ Hpending) as Hrest.
    destruct o as [| r]; [now split |].
    apply commit_withinCapacity; [| exact Hrest].
    destruct f as [| d off | d off].
    + change (len (orEmpty r) <= 2 * size).
      destruct r as [m |]; unfold conforming in Hconf; unfold len in *;
        cbn [orEmpty length]; lia.
    + now apply resolved_bound.
    + now apply resolved_bound.
Qed.

(** While the source returns pages of at most [size] items, the window
    and the windows held by outstanding fetches never exceed [2 * size]. *)
Lemma run_withinCapacity es : forall sys,
  Forall (conforming size) es ->
  withinCapacity size sys ->
  withinCapacity size (runC es sys).
Proof.
  induction es as [| e es IH]; intros sys Hconf Hcap; cbn; [exact Hcap |].
  inversion Hconf as [| ? ? He Hes]; subst.
  apply IH; [exact Hes |]. now apply step_withinCapacity.
Qed.

Lemma onMount_withinCapacity : withinCapacity size (@onMount T size).
Proof.
  split.
  - change (len (@nil T) <= 2 * size). unfold len. cbn [length]. lia.
  - constructor; [| constructor].
    unfold len. cbn [closureWindow length]. lia.
Qed.

End Capacity.

Section SourceIdentity.

Context {T : Type}.
Variable size : Z.
Variable loaderComponent : bool.

Implicit Types (sys : @System T) (r : option (list T)).


End SourceIdentity.

Section Failure.

Context {T : Type}.
Variable size : Z.
Variable loaderComponent : bool.

Implicit Types (d : option (list T)) (s : @State T) (sys : @System T).

(** A forward fetch that resolves with [undefined] appends nothing. *)
Lemma forwardFetchResolved_undefined d s :
  len (orEmpty d) <= 2 * size ->
  forwardFetchResolved size d None s
  = setFetchDataForward false (setData (Some (orEmpty d)) (setLoading false s)).
Proof.
  intros Hcap.
  rewrite forwardFetchResolved_keep; cbn [orEmpty]; rewrite app_nil_r;
    [reflexivity | exact Hcap].
Qed.

(** A backward fetch that resolves with [undefined] prepends nothing,
    and stops before [setFetchDataBackward(false)]. *)
Lemma backwardFetchResolved_undefined d s :
  len (orEmpty d) <= 2 * size ->
  backwardFetchResolved size d None s
  = setData (Some (orEmpty d)) (setLoading false s).
Proof.
  intros Hcap. unfold backwardFetchResolved. cbn [orEmpty app].
  rewrite maxNumberOfElements_eq.
  assert (Hle : (len (orEmpty d) >? 2 * size) = false).
  { rewrite Z.gtb_ltb. apply Z.ltb_ge. exact Hcap. }
  now rewrite Hle.
Qed.

(** C10.  A forward fetch that resolves with [undefined] leaves the
    window contents as its closure holds them (nothing is appended) and
    does not touch [dataFinished]: the comparison of an absent length with
    [size] is false, so a missing result is not taken for exhaustion. *)
Theorem forward_undefined_is_not_exhaustion d s :
  len (orEmpty d) <= 2 * size ->
  let s' := forwardFetchResolved size d None s in
  fewerThanSize size (@None (list T)) = false
  /\ window s' = orEmpty d
  /\ dataFinished s' = dataFinished s
  /\ prevOffset s' = prevOffset s
  /\ nextOffset s' = nextOffset s.
Proof.
  intros Hcap s'. unfold s'.
  rewrite forwardFetchResolved_undefined by exact Hcap.
  repeat split.
Qed.

(** [data?.length || size] depends on the elements only. *)
Lemma lengthOrSize_orEmpty d :
  lengthOrSize size d
  = if len (orEmpty d) =? 0 then size else len (orEmpty d).
Proof. destruct d; reflexivity. Qed.

(** A forward trigger that was rendered is still rendered, at the same
    index, after a forward fetch without a result. *)
Lemma lowerTarget_after_undefined d s idx :
  orEmpty d = window s ->
  renderAt size loaderComponent s idx = LowerTarget ->
  renderAt size loaderComponent
    (setFetchDataForward false (setData (Some (orEmpty d)) (setLoading false s)))
    idx
  = LowerTarget.
Proof.
  intros Hsame. unfold renderAt, forwardThreshold, window.
  rewrite !lengthOrSize_orEmpty.
  cbn [prevOffset dataFinished loading fetchDataBackward fetchDataForward
       data setFetchDataForward setData setLoading orEmpty].
  rewrite Hsame. unfold window.
  destruct ((idx =? 0) && loaderComponent && loading s && fetchDataBackward s);
    [discriminate |].
  rewrite andb_false_r, andb_false_l.
  destruct ((prevOffset s >? 0) && (idx =? backwardThreshold size));
    [discriminate |].
  destruct ((idx =? _) && negb (dataFinished s)); [reflexivity |].
  rewrite andb_false_r.
  destruct ((idx =? len (orEmpty (data s)) - 1) && loaderComponent && _ && _);
    discriminate.
Qed.

(** C7, as the code has it.  A fetch whose promise rejects updates no
    state at all: the window, both offsets and [dataFinished] are as they
    were, and so are [loading] and the direction flags, so the coordinator
    does not leave its fetching state.  A forward fetch that yields no
    data (resolves with [undefined]) returns the coordinator to [Idle]
    with the window of its closure, both offsets and [dataFinished]
    unchanged, and a forward trigger that was rendered stays rendered; a
    backward fetch that yields no data leaves the window of its closure,
    both offsets and [dataFinished] unchanged.  None of them asks the
    source again by itself. *)
Theorem failed_fetch_leaves_window_and_offsets sys i f :
  nth_error (pending sys) i = Some f ->
  (st (step size loaderComponent sys (Settled i Rejected)) = st sys
   /\ calls (step size loaderComponent sys (Settled i Rejected)) = calls sys)
  /\ (f <> InitialFetch ->
      len (closureWindow f) <= 2 * size ->
      let sys' := step size loaderComponent sys (Settled i (Resolved None)) in
      window (st sys') = closureWindow f
      /\ prevOffset (st sys') = prevOffset (st sys)
      /\ nextOffset (st sys') = nextOffset (st sys)
      /\ dataFinished (st sys') = dataFinished (st sys)
      /\ calls sys' = calls sys
      /\ (forall d off, f = ForwardFetch d off ->
            fetchState (st sys') = Idle
            /\ fetchDataForward (st sys') = false
            /\ forall idx,
                 closureWindow f = window (st sys) ->
                 renderAt size loaderComponent (st sys) idx = LowerTarget ->
                 renderAt size loaderComponent (st sys') idx = LowerTarget)).
Proof.
  intros Hpending. split.
  - cbn [step]. rewrite Hpending. split; reflexivity.
  - intros Hmerge Hcap sys'. unfold sys'. cbn [step]. rewrite Hpending.
    destruct f as [| d off | d off]; [contradiction | |];
      cbn [resolved closureWindow] in *.
    + rewrite forwardFetchResolved_undefined by exact Hcap.
      rewrite commit_same_offsets by reflexivity.
      do 5 (split; [reflexivity |]).
      intros d' off' _. do 2 (split; [reflexivity |]).
      intros idx Hsame Hlower. cbn [st].
      now apply lowerTarget_after_undefined.
    + rewrite backwardFetchResolved_undefined by exact Hcap.
      rewrite commit_same_offsets by reflexivity.
      repeat split; discriminate.
Qed.

(** With no merge in between, the closure holds the window that is
    shown, and a forward fetch without a result changes nothing of it. *)
Lemma forward_undefined_keeps_window s :
  len (window s) <= 2 * size ->
  window (forwardFetchResolved size (data s) None s) = window s.
Proof.
  intros Hcap. now rewrite forwardFetchResolved_undefined.
Qed.

End Failure.

(** ** The boundary locator *)

Section Boundary.

Context {T : Type}.
Variable size : Z.
Variable loaderComponent : bool.

Implicit Types (s : @State T) (slots : list Slot).

(** The slot at position [i] of the output is the callback at index [i]. *)
Lemma render_nth s slots i x :
  render size loaderComponent s = Some slots ->
  nth_error slots i = Some x ->
  x = renderAt size loaderComponent s (Z.of_nat i)
  /\ (i < length (window s))%nat.
Proof.
  unfold render.
  destruct (negb (fetchDataForward s) && negb (fetchDataBackward s) && loading s);
    [discriminate |].
  intros [= <-]. unfold indices.
  rewrite !nth_error_map, nth_error_seq.
  destruct (Nat.ltb_spec i (length (window s))) as [Hlt | Hge];
    [| discriminate].
  cbn. intros [= <-]. split; [reflexivity | exact Hlt].
Qed.

(** On a window that holds elements, [data?.length || size] is the
    length. *)
Lemma lengthOrSize_window s :
  window s <> [] -> lengthOrSize size (data s) = len (window s).
Proof.
  unfold window, lengthOrSize. destruct (data s) as [a |]; cbn [orEmpty].
  - intros Hne. destruct (Z.eqb_spec (len a) 0) as [Hz | _]; [| reflexivity].
    destruct a; [contradiction | unfold len in Hz; cbn in Hz; lia].
  - contradiction.
Qed.

Lemma renderAt_LowerTarget s idx :
  renderAt size loaderComponent s idx = LowerTarget ->
  idx = forwardThreshold size (data s) /\ dataFinished s = false.
Proof.
  unfold renderAt.
  destruct ((idx =? 0) && loaderComponent && loading s && fetchDataBackward s);
    [discriminate |].
  destruct ((prevOffset s >? 0) && (idx =? backwardThreshold size));
    [discriminate |].
  destruct (Z.eqb_spec idx (forwardThreshold size (data s))) as [Heq | _];
    destruct (dataFinished s); cbn [andb negb];
    try (destruct ((idx =? len (window s) - 1) && loaderComponent && _ && _);
         discriminate).
  intros _. split; [exact Heq | reflexivity].
Qed.

Lemma renderAt_UpperTarget s idx :
  renderAt size loaderComponent s idx = UpperTarget ->
  idx = backwardThreshold size /\ 0 < prevOffset s.
Proof.
  unfold renderAt.
  destruct ((idx =? 0) && loaderComponent && loading s && fetchDataBackward s);
    [discriminate |].
  destruct (Z.gtb_spec (prevOffset s) 0) as [Hpos | _];
    destruct (Z.eqb_spec idx (backwardThreshold size)) as [Heq | _];
    cbn [andb];
    try (destruct ((idx =? forwardThreshold size (data s)) && _);
         [discriminate |];
         destruct ((idx =? len (window s) - 1) && loaderComponent && _ && _);
         discriminate).
  intros _. split; [exact Heq | lia].
Qed.

(** The forward trigger is there whenever the list is rendered, the
    source is not exhausted and its index falls inside the window, away
    from the first element and from the backward trigger. *)
Lemma lower_target_is_placed s slots :
  render size loaderComponent s = Some slots ->
  dataFinished s = false ->
  let idx := (5 * len (window s) - size) / 5 in
  0 < idx < len (window s) ->
  idx <> size / 5 ->
  nth_error slots (Z.to_nat idx) = Some LowerTarget.
Proof.
  intros Hrender Hfin idx Hrange Hother.
  unfold render in Hrender.
  destruct (negb (fetchDataForward s) && negb (fetchDataBackward s) && loading s);
    [discriminate |].
  injection Hrender as <-. unfold indices.
  rewrite !nth_error_map, nth_error_seq.
  assert (Hlt : (Z.to_nat idx <? length (window s))%nat = true).
  { apply Nat.ltb_lt. unfold len in Hrange. lia. }
  rewrite Hlt. cbn [option_map Nat.add]. rewrite Z2Nat.id by lia.
  unfold renderAt.
  assert (Hne : window s <> []).
  { destruct (window s); [unfold len in Hrange; cbn in Hrange; lia
                         | discriminate]. }
  unfold forwardThreshold, backwardThreshold.
  rewrite (lengthOrSize_window s Hne). fold idx.
  replace (idx =? 0) with false by (symmetry; apply Z.eqb_neq; lia).
  replace (idx =? size / 5) with false by (symmetry; now apply Z.eqb_neq).
  rewrite Z.eqb_refl, Hfin, andb_false_r. reflexivity.
Qed.

(** The backward trigger is there whenever the list is rendered,
    [prevOffset > 0] and its index falls inside the window, away from the
    first element. *)
Lemma upper_target_is_placed s slots :
  render size loaderComponent s = Some slots ->
  0 < prevOffset s ->
  0 < size / 5 < len (window s) ->
  nth_error slots (Z.to_nat (size / 5)) = Some UpperTarget.
Proof.
  intros Hrender Hprev Hrange.
  unfold render in Hrender.
  destruct (negb (fetchDataForward s) && negb (fetchDataBackward s) && loading s);
    [discriminate |].
  injection Hrender as <-. unfold indices.
  rewrite !nth_error_map, nth_error_seq.
  assert (Hlt : (Z.to_nat (size / 5) <? length (window s))%nat = true).
  { apply Nat.ltb_lt. unfold len in Hrange. lia. }
  rewrite Hlt. cbn [option_map Nat.add]. rewrite Z2Nat.id by lia.
  unfold renderAt, backwardThreshold.
  replace (size / 5 =? 0) with false by (symmetry; apply Z.eqb_neq; lia).
  replace (prevOffset s >? 0) with true by (symmetry; apply Z.gtb_lt; lia).
  now rewrite Z.eqb_refl.
Qed.

(** The threshold of an empty window is computed from [size] itself;
    nothing is rendered then. *)
Lemma forwardThreshold_of_empty_window :
  forwardThreshold size (Some (@nil T)) = (4 * size) / 5
  /\ forall s, window s = [] ->
       render size loaderComponent s = None
       \/ render size loaderComponent s = Some [].
Proof.
  split.
  - unfold forwardThreshold, lengthOrSize, len. cbn [length Z.of_nat Z.eqb].
    now replace (5 * size - size) with (4 * size) by lia.
  - intros s Hempty. unfold render. rewrite Hempty.
    destruct (negb (fetchDataForward s) && negb (fetchDataBackward s)
              && loading s); [now left | now right].
Qed.

(** C8.  In the rendered list, counting from the head of a window of
    length [L]: an element that carries the forward trigger has the index
    [idx] with [idx <= L - size / 5 < idx + 1], that is
    [floor (L - 0.2 * size)]; an element that carries the backward trigger
    has the index [floor (0.2 * size)], and there is one only while
    [prevOffset > 0].  Conversely the forward trigger is at that index
    while the source is not exhausted, and the backward trigger at its
    index while [prevOffset > 0], when the index lies inside the window
    past the first element (and the two do not coincide). *)
Theorem boundary_targets_placement s slots i :
  render size loaderComponent s = Some slots ->
  let L := len (window s) in
  let idx := Z.of_nat i in
  (nth_error slots i = Some LowerTarget ->
     idx = (5 * L - size) / 5
     /\ 5 * idx <= 5 * L - size < 5 * (idx + 1))
  /\ (nth_error slots i = Some UpperTarget ->
        idx = size / 5
        /\ 5 * idx <= size < 5 * (idx + 1)
        /\ 0 < prevOffset s)
  /\ (prevOffset s = 0 -> nth_error slots i <> Some UpperTarget)
  /\ (dataFinished s = false ->
        0 < (5 * L - size) / 5 < L ->
        (5 * L - size) / 5 <> size / 5 ->
        nth_error slots (Z.to_nat ((5 * L - size) / 5)) = Some LowerTarget)
  /\ (0 < prevOffset s ->
        0 < size / 5 < L ->
        nth_error slots (Z.to_nat (size / 5)) = Some UpperTarget).
Proof.
  intros Hrender L idx.
  assert (Hupper : nth_error slots i = Some UpperTarget ->
            idx = size / 5 /\ 0 < prevOffset s).
  { intros Hnth.
    destruct (render_nth s slots i _ Hrender Hnth) as [Hslot _].
    symmetry in Hslot. apply renderAt_UpperTarget in Hslot. exact Hslot. }
  split; [| split; [| split; [| split]]].
  - intros Hnth.
    destruct (render_nth s slots i _ Hrender Hnth) as [Hslot Hlt].
    symmetry in Hslot. apply renderAt_LowerTarget in Hslot.
    destruct Hslot as [Hidx _]. unfold forwardThreshold in Hidx.
    rewrite lengthOrSize_window in Hidx
      by (destruct (window s); [cbn in Hlt; lia | discriminate]).
    fold L idx in Hidx. split; [exact Hidx |].
    rewrite Hidx. pose proof (Z.div_mod (5 * L - size) 5 ltac:(lia)).
    pose proof (Z.mod_pos_bound (5 * L - size) 5 ltac:(lia)). lia.
  - intros Hnth. destruct (Hupper Hnth) as [Hidx Hpos].
    split; [exact Hidx |]. split; [| exact Hpos].
    rewrite Hidx. pose proof (Z.div_mod size 5 ltac:(lia)).
    pose proof (Z.mod_pos_bound size 5 ltac:(lia)). lia.
  - intros Hzero Hnth. destruct (Hupper Hnth) as [_ Hpos]. lia.
  - intros Hfin Hrange Hother.
    exact (lower_target_is_placed s slots Hrender Hfin Hrange Hother).
  - intros Hprev Hrange.
    exact (upper_target_is_placed s slots Hrender Hprev Hrange).
Qed.

End Boundary.

(** ** The backward offset *)

Section BackwardOffset.

Variable size : Z.

(** The updater never returns a negative offset. *)
Lemma prevOffsetUpdater_nonneg dataLength prev :
  0 <= prevOffsetUpdater size dataLength prev.
Proof. unfold prevOffsetUpdater. lia. Qed.

(** On a window whose length is a multiple of [size] the updater steps
    back by one page, as the recipe of the specification does. *)
Lemma prevOffsetUpdater_aligned dataLength prev :
  0 < size ->
  0 <= dataLength ->
  dataLength mod size = 0 ->
  prevOffsetUpdater size dataLength prev = Z.max 0 (prev - size)
  /\ Spec.computeNextBackwardOffset prev dataLength size
     = Z.max 0 (prev - size).
Proof.
  intros Hsize Hlen Hmod.
  unfold prevOffsetUpdater, Spec.computeNextBackwardOffset.
  rewrite Z.rem_mod_nonneg, Hmod by lia. split; reflexivity.
Qed.

(** On any other window the updater subtracts
    [dataLength - modulo * size], the recipe [dataLength - modulo]. *)
Lemma prevOffsetUpdater_unaligned dataLength prev :
  0 < size ->
  0 <= dataLength ->
  dataLength mod size <> 0 ->
  prevOffsetUpdater size dataLength prev
    = Z.max 0 (prev - (dataLength - (dataLength mod size) * size))
  /\ Spec.computeNextBackwardOffset prev dataLength size
     = Z.max 0 (prev - (dataLength - dataLength mod size)).
Proof.
  intros Hsize Hlen Hmod.
  unfold prevOffsetUpdater, Spec.computeNextBackwardOffset.
  rewrite Z.rem_mod_nonneg by lia.
  destruct (Z.eqb_spec (dataLength mod size) 0) as [Hz | _];
    [contradiction | split; reflexivity].
Qed.

End BackwardOffset.

(** C1.  With [size = 10], a window of 13 items and [prevOffset = 10],
    the updater of the upper observer returns [10 - (13 - 3 * 10) = 27]:
    the offset moves forward on a backward crossing.  The recipe
    [prevOffset - (L - L mod P)] gives [max 0 (10 - (13 - 3)) = 0]. *)
Theorem backward_offset_unaligned_diverges :
  prevOffsetUpdater 10 13 10 = 27
  /\ Spec.computeNextBackwardOffset 10 13 10 = 0.
Proof. split; reflexivity. Qed.

(** ** The scroll anchor *)

Section ScrollAnchor.

Context {T : Type}.

Local Open Scope float_scope.

(** The adjustment, with the window capacity written [2 * size]. *)
Lemma scrollDelta_unfold (size sh loaderH fetched : Z) :
  scrollDelta size sh loaderH fetched
  = toNumber fetched * (toNumber (sh - loaderH) / toNumber (2 * size))
    - toNumber loaderH.
Proof.
  unfold scrollDelta, heightOfSingleElement, maxNumberOfElements,
    numberOfPagesRendered.
  now rewrite Z.mul_comm.
Qed.

(** C6, as the code has it.  After a backward fetch that resolved with
    an array, [scrollTop] has grown by
    [count * (baseHeight / maxElements) - indicatorHeight], each operation
    rounded to binary64 and the quotient taken first, where [count] is the
    number of fetched items, [baseHeight] the scroll height less the
    indicator's height and [maxElements = 2 * size].  For a base height of
    1000, 60 elements, 30 fetched items and an indicator of 50 this is
    [450.00000000000006], that is [450 + 2^-44]. *)
Theorem scroll_adjustment_in_binary64 :
  (forall (size closurePrevOffset : Z) (offsetHeight : option Z)
          (m : list T) (c : Container),
     exists c',
       backwardFetchContainer size closurePrevOffset offsetHeight (Some m) c
         = Some c'
       /\ let indicatorHeight := loaderComponentHeight offsetHeight in
          let baseHeight := (scrollHeight c - indicatorHeight)%Z in
          let maxElements := (2 * size)%Z in
          scrollTop c'
          = scrollTop c
            + (toNumber (len m)
                 * (toNumber baseHeight / toNumber maxElements)
               - toNumber indicatorHeight))
  /\ scrollDelta 30 (1000 + 50) 50 30 = 0x1.c200000000001p+8
  /\ scrollDelta 30 (1000 + 50) 50 30 - 450 = 0x1p-44.
Proof.
  split; [| split; reflexivity].
  intros size closurePrevOffset offsetHeight m c.
  eexists. split; [reflexivity |].
  cbn [scrollTop]. now rewrite scrollDelta_unfold.
Qed.

End ScrollAnchor.

(** The adjustment of the example is not 450. *)
Lemma scroll_adjustment_example_is_not_450 :
  scrollDelta 30 (1000 + 50) 50 30 <> 450%float.
Proof.
  intros Heq.
  apply (f_equal (fun x => PrimFloat.eqb x 450%float)) in Heq.
  vm_compute in Heq. discriminate Heq.
Qed.

(** ** The thresholds on doubles *)

(** [Math.floor] of the two threshold arguments, computed on doubles,
    is the integer the embedding uses: checked for every [size] from 1 to
    200 and every window length from 1 to [2 * size + 1]. *)
Lemma threshold_double_agrees :
  forallb
    (fun size =>
       isFloor (backwardThresholdArg size) (backwardThreshold size)
       && forallb
            (fun n => isFloor (forwardThresholdArg size n) ((5 * n - size) / 5))
            (map Z.of_nat (seq 1 (2 * Z.to_nat size + 1))))
    (map Z.of_nat (seq 1 200))
  = true.
Proof. vm_compute. reflexivity. Qed.

(** ** The scenario: 25 items, pages of 10 *)

Section ScenarioFacts.

Import Scenario.

(** The end-to-end walk: the first page, two forward crossings that
    fetch at offsets 10 and 20, the last page of five items that trims
    the five leading ones and marks the source exhausted; two more
    forward crossings fetch nothing. *)
Lemma walk_ends_exhausted :
  let final := run 10 true walk (onMount 10) in
  window (st final) = page 25 20 5
  /\ prevOffset (st final) = 5
  /\ dataFinished (st final) = true
  /\ pending final = []
  /\ calls final
     = [mkCall Initial 10 0; mkCall Forward 10 10; mkCall Forward 10 20].
Proof. vm_compute. repeat split. Qed.

(** A window whose length is not a multiple of [size] can be shown
    with [prevOffset > 0]: on [overlapping] the window holds 13 items at
    [prevOffset = 10], and the backward crossing then asks the source for
    the page at offset 27. *)
Lemma unaligned_window_is_reachable :
  let sys := run 10 true overlapping firstPage in
  len (window (st sys)) = 13
  /\ prevOffset (st sys) = 10
  /\ mounted 10 true UpperTarget (st sys) = true
  /\ calls (step 10 true sys UpperCrossed)
     = calls sys ++ [mkCall Backward 10 27].
Proof. vm_compute. repeat split. Qed.

(** With [size = 0] the forward merge trims nothing: [slice(-0)] is the
    whole array. *)
Lemma forward_merge_untrimmed_at_size_zero :
  window (forwardFetchResolved 0 (Some [1]) (Some [2]) initialState) = [1; 2].
Proof. reflexivity. Qed.

(** A forward fetch that is outstanding when the source changes is not
    cancelled: resolving after the reset, it stores the window of its
    closure followed by what it fetched. *)
Lemma outstanding_fetch_survives_reset :
  let sys :=
    run 10 true
      [SourceChanged;
       Settled 1 (Resolved (Some [100; 101]));
       Settled 0 (Resolved (fetchData 10 20))]
      thirdPageAsked in
  window (st sys) = page 25 20 5 /\ prevOffset (st sys) = 5.
Proof. vm_compute. split; reflexivity. Qed.

(** The first page comes from the effect on [[fetchData]], which
    always clears [dataFinished]: a source of five items is not yet marked
    exhausted by it, and the next forward crossing fetches at offset 10. *)
Lemma short_first_page_is_not_exhaustion :
  let shown := run 10 true [Settled 0 (Resolved (Some (page 5 10 0)))]
                 (onMount 10) in
  window (st shown) = [0; 1; 2; 3; 4]
  /\ dataFinished (st shown) = false
  /\ calls (step 10 true shown LowerCrossed)
     = [mkCall Initial 10 0; mkCall Forward 10 10].
Proof. vm_compute. repeat split. Qed.

(** The forward fetch of [thirdPageAsked] rejects: the coordinator is
    still fetching forward, not [Idle]. *)
Lemma rejected_forward_fetch_is_not_idle :
  nth_error (pending thirdPageAsked) 0
    = Some (ForwardFetch (Some (page 25 20 0)) 20)
  /\ fetchState (st (step 10 true thirdPageAsked (Settled 0 Rejected)))
     <> Idle.
Proof. split; [reflexivity | vm_compute; discriminate]. Qed.

(** After that rejection the forward trigger is still mounted, and the
    next crossing asks for offset 30: the page at offset 20 is skipped,
    not asked for again. *)
Lemma rejected_page_is_skipped :
  let failed := step 10 true thirdPageAsked (Settled 0 Rejected) in
  mounted 10 true LowerTarget (st failed) = true
  /\ forwardCalls (step 10 true failed LowerCrossed)
     = [mkCall Forward 10 10; mkCall Forward 10 20; mkCall Forward 10 30].
Proof. vm_compute. split; reflexivity. Qed.

End ScenarioFacts.

(** ** The theorems at work on the scenario *)

Section Witnesses.

Import Scenario.

(** C2 on the end-to-end walk. *)
Lemma window_bound_after_every_merge_witness :
  0 < 10 /\ boundedAfterMerges 10 true walk (onMount 10).
Proof.
  assert (Hsize : 0 < 10) by reflexivity.
  split; [exact Hsize |].
  exact (window_bound_after_every_merge 10 true Hsize walk (onMount 10)).
Defined.


(** C4 on a window of two items, one fetched item and [size = 1]. *)
Lemma forward_merge_trims_leading_excess_witness :
  let s' := forwardFetchResolved 1 (Some [1; 2]) (Some [3]) initialState in
  (0 < 1 /\ 2 * 1 < len ([1; 2] ++ [3]))
  /\ exists dropped kept,
       [1; 2] ++ [3] = dropped ++ kept
       /\ len dropped = 1
       /\ len kept = 2
       /\ data s' = Some kept
       /\ prevOffset s' = 0 + 1.
Proof.
  intros s'.
  assert (Hsize : 0 < 1) by reflexivity.
  assert (Hlong : 2 * 1 < len ([1; 2] ++ [3])) by reflexivity.
  split; [split; assumption |].
  exact (proj1 (forward_merge_trims_leading_excess 1 Hsize
                  (Some [1; 2]) (Some [3]) initialState) Hlong).
Defined.

(** C5 on the same window, fetched backward. *)
Lemma backward_merge_trims_trailing_excess_witness :
  let s' := backwardFetchResolved 1 (Some [1; 2]) (Some [0]) initialState in
  (0 < 1 /\ 2 * 1 < len ([0] ++ [1; 2]))
  /\ exists kept dropped,
       [0] ++ [1; 2] = kept ++ dropped
       /\ len dropped = 1
       /\ len kept = 2
       /\ data s' = Some kept
       /\ nextOffset s' = 0 - 1.
Proof.
  intros s'.
  assert (Hsize : 0 < 1) by reflexivity.
  assert (Hlong : 2 * 1 < len ([0] ++ [1; 2])) by reflexivity.
  split; [split; assumption |].
  exact (proj1 (backward_merge_trims_trailing_excess 1 Hsize
                  (Some [1; 2]) (Some [0]) initialState) Hlong).
Defined.

(** C7 on the outstanding forward fetch of [thirdPageAsked]. *)
Lemma failed_fetch_leaves_window_and_offsets_witness :
  nth_error (pending thirdPageAsked) 0
    = Some (ForwardFetch (Some (page 25 20 0)) 20)
  /\ st (step 10 true thirdPageAsked (Settled 0 Rejected))
     = st thirdPageAsked
  /\ fetchState (st (step 10 true thirdPageAsked (Settled 0 (Resolved None))))
     = Idle.
Proof.
  assert (Hpending : nth_error (pending thirdPageAsked) 0
                     = Some (ForwardFetch (Some (page 25 20 0)) 20))
    by reflexivity.
  assert (Hmerge : ForwardFetch (Some (page 25 20 0)) 20 <> InitialFetch)
    by discriminate.
  assert (Hcap : len (closureWindow (ForwardFetch (Some (page 25 20 0)) 20))
                 <= 2 * 10)
    by (vm_compute; discriminate).
  pose proof (failed_fetch_leaves_window_and_offsets 10 true
                thirdPageAsked 0 _ Hpending) as [[Hrejected _] Hundefined].
  split; [exact Hpending |]. split; [exact Hrejected |].
  exact (proj1 (proj2 (proj2 (proj2 (proj2 (proj2
           (Hundefined Hmerge Hcap))))) _ _ eq_refl)).
Defined.

(** C8 on the first page: ten items, the forward trigger on the ninth. *)
Lemma boundary_targets_placement_witness :
  exists slots,
    render 10 true (st firstPage) = Some slots
    /\ nth_error slots 8 = Some LowerTarget
    /\ Z.of_nat 8 = (5 * len (window (st firstPage)) - 10) / 5.
Proof.
  eexists. split; [reflexivity |]. split; [reflexivity |].
  exact (proj1 (proj1 (boundary_targets_placement 10 true (st firstPage)
                         _ 8 eq_refl) eq_refl)).
Defined.


(** C10 on the window of the first page. *)
Lemma forward_undefined_is_not_exhaustion_witness :
  let s := st firstPage in
  let s' := forwardFetchResolved 10 (data s) None s in
  len (orEmpty (data s)) <= 2 * 10
  /\ window s' = window s
  /\ dataFinished s' = false.
Proof.
  intros s s'.
  assert (Hcap : len (orEmpty (data s)) <= 2 * 10)
    by (vm_compute; discriminate).
  split; [exact Hcap |].
  destruct (forward_undefined_is_not_exhaustion 10 (data s) s Hcap)
    as (_ & Hwindow & Hfinished & _).
  split; [exact Hwindow | exact Hfinished].
Defined.

End Witnesses.


(** * Further properties of the component *)

(** ** The observers and the fetch effects they set off *)

Section Crossings.

Context {T : Type}.
Variable size : Z.
Variable loaderComponent : bool.

Implicit Types (s : @State T) (sys : @System T).

Lemma Slot_eqb_eq (a b : Slot) : Slot_eqb a b = true -> a = b.
Proof. destruct a, b; cbn; congruence. Qed.

(** A mounted marker is the slot of some element of the window. *)
Lemma mounted_nth m s :
  mounted size loaderComponent m s = true ->
  exists slots i,
    render size loaderComponent s = Some slots
    /\ nth_error slots i = Some m.
Proof.
  unfold mounted.
  destruct (render size loaderComponent s) as [slots |]; [| discriminate].
  intros Hex. apply existsb_exists in Hex. destruct Hex as (x & Hin & Heq).
  apply Slot_eqb_eq in Heq. subst x.
  apply In_nth_error in Hin. destruct Hin as [i Hi].
  now exists slots, i.
Qed.

Lemma mounted_UpperTarget_prevOffset s :
  mounted size loaderComponent UpperTarget s = true ->
  0 < prevOffset s.
Proof.
  intros Hm. destruct (mounted_nth _ _ Hm) as (slots & i & Hrender & Hnth).
  destruct (render_nth size loaderComponent s slots i _ Hrender Hnth)
    as [Hslot _].
  symmetry in Hslot. now apply renderAt_UpperTarget in Hslot.
Qed.

(** From a positive offset the updater of the upper observer never
    returns the offset it was given. *)
Lemma prevOffsetUpdater_moves dataLength prev :
  0 < size ->
  0 < prev ->
  prevOffsetUpdater size dataLength prev <> prev.
Proof.
  intros Hsize Hprev. unfold prevOffsetUpdater.
  destruct (Z.eqb_spec (Z.rem dataLength size) 0) as [Hz | Hnz]; [lia |].
  intros Heq.
  assert (Hlen : dataLength = Z.rem dataLength size * size) by lia.
  apply Hnz. rewrite Hlen at 1. apply Z.rem_mul. lia.
Qed.

(** X1.  Whenever the lower target is mounted and crossed, with
    [size <> 0], the component asks for exactly one page, at
    [nextOffset + size], whatever is still outstanding: [nextOffset]
    advances at once, [fetchDataForward] is set, [fetchDataBackward] is
    cleared and [loading] is raised, and the fetch holds the window that
    was shown at the crossing. *)
Theorem lower_crossing_asks_next_page sys :
  size <> 0 ->
  mounted size loaderComponent LowerTarget (st sys) = true ->
  step size loaderComponent sys LowerCrossed
  = mkSystem
      (setLoading true (onLowerIntersect size (st sys)))
      (pending sys
         ++ [ForwardFetch (data (st sys)) (nextOffset (st sys) + size)])
      (calls sys ++ [mkCall Forward size (nextOffset (st sys) + size)]).
Proof.
  intros Hsize Hmounted. cbn [step]. rewrite Hmounted.
  unfold commit, forwardEffect, backwardEffect.
  cbn [nextOffset prevOffset fetchDataForward fetchDataBackward data
       onLowerIntersect setFetchDataBackward setFetchDataForward
       setNextOffset st issue setLoading].
  replace (nextOffset (st sys) =? nextOffset (st sys) + size) with false
    by (symmetry; apply Z.eqb_neq; lia).
  cbn [negb andb]. rewrite Z.eqb_refl. reflexivity.
Qed.

(** X2.  Whenever the upper target is mounted and crossed, with
    [size > 0], the component asks for exactly one page, at the offset
    the updater returns: that offset is never negative and never the
    current [prevOffset], so the effect on [[prevOffset]] always runs. *)
Theorem upper_crossing_asks_previous_page sys :
  0 < size ->
  mounted size loaderComponent UpperTarget (st sys) = true ->
  let offset :=
    prevOffsetUpdater size (len (window (st sys))) (prevOffset (st sys)) in
  0 <= offset
  /\ offset <> prevOffset (st sys)
  /\ step size loaderComponent sys UpperCrossed
     = mkSystem
         (setLoading true (onUpperIntersect size (window (st sys)) (st sys)))
         (pending sys ++ [BackwardFetch (data (st sys)) offset])
         (calls sys ++ [mkCall Backward size offset]).
Proof.
  intros Hsize Hmounted offset.
  pose proof (mounted_UpperTarget_prevOffset _ Hmounted) as Hprev.
  pose proof (prevOffsetUpdater_moves (len (window (st sys))) _ Hsize Hprev)
    as Hmoves. fold offset in Hmoves.
  split; [apply prevOffsetUpdater_nonneg |]. split; [exact Hmoves |].
  cbn [step]. rewrite Hmounted.
  unfold commit, forwardEffect, backwardEffect.
  cbn [nextOffset prevOffset fetchDataForward fetchDataBackward data
       onUpperIntersect setFetchDataBackward setFetchDataForward
       setPrevOffset st issue setLoading].
  fold offset. rewrite Z.eqb_refl. cbn [negb andb].
  replace (prevOffset (st sys) =? offset) with false
    by (symmetry; apply Z.eqb_neq; congruence).
  reflexivity.
Qed.


End Crossings.

(** ** Invariants of the coordinator *)

Section Invariants.

Context {T : Type}.
Variable size : Z.
Variable loaderComponent : bool.

Implicit Types (s old new : @State T) (sys : @System T) (e : @Event T)
               (f : @Fetch T).

(** A commit keeps the offsets of the rendered state. *)
Lemma commit_offsets old new sys :
  nextOffset (st (commit size old new sys)) = nextOffset new
  /\ prevOffset (st (commit size old new sys)) = prevOffset new.
Proof.
  destruct (commit_st size old new sys) as [Hst | Hst]; rewrite Hst;
    split; reflexivity.
Qed.

Lemma pagesAfter_S start n :
  pagesAfter size start (S n)
  = (start + size) :: pagesAfter size (start + size) n.
Proof.
  unfold pagesAfter. cbn [seq map]. f_equal; [lia |].
  rewrite <- seq_shift, map_map. apply map_ext. intros k. lia.
Qed.

(** A crossing of the mounted lower target advances [nextOffset] and
    adds one forward call. *)
Lemma step_lower_fires sys :
  size <> 0 ->
  mounted size loaderComponent LowerTarget (st sys) = true ->
  let sys' := step size loaderComponent sys LowerCrossed in
  nextOffset (st sys') = nextOffset (st sys) + size
  /\ forwardCalls sys'
     = forwardCalls sys ++ [mkCall Forward size (nextOffset (st sys) + size)].
Proof.
  intros Hsize Hmounted sys'. unfold sys'. cbn [step]. rewrite Hmounted.
  destruct (commit_offsets (st sys) (onLowerIntersect size (st sys)) sys)
    as [Hnext _].
  split; [rewrite Hnext; reflexivity |].
  unfold commit, forwardEffect, backwardEffect.
  cbn [nextOffset prevOffset fetchDataForward fetchDataBackward data
       onLowerIntersect setFetchDataBackward setFetchDataForward
       setNextOffset st issue setLoading].
  replace (nextOffset (st sys) =? nextOffset (st sys) + size) with false
    by (symmetry; apply Z.eqb_neq; lia).
  cbn [negb andb]. rewrite Z.eqb_refl. cbn [negb andb].
  unfold forwardCalls, issue. cbn [calls]. rewrite forwardCalls_app.
  reflexivity.
Qed.

(** X4.  Under forward scrolling alone (crossings of the lower target
    and the settling, resolved or rejected, of forward fetches),
    [nextOffset] grows by exactly [size] per crossing that reaches the
    observer, and the pages asked for are the consecutive ones after the
    starting offset: none is asked twice and none is skipped. *)
Theorem forward_scrolling_asks_consecutive_pages es : forall sys,
  size <> 0 ->
  forwardOnly size loaderComponent es sys ->
  let n := firedLower size loaderComponent es sys in
  let final := run size loaderComponent es sys in
  nextOffset (st final) = nextOffset (st sys) + Z.of_nat n * size
  /\ map callOffset (forwardCalls final)
     = map callOffset (forwardCalls sys)
       ++ pagesAfter size (nextOffset (st sys)) n.
Proof.
  induction es as [| e es IH]; intros sys Hsize Honly.
  - cbn. split; [lia | now rewrite app_nil_r].
  - destruct Honly as [Hfwd Hrest].
    specialize (IH _ Hsize Hrest). cbn zeta in IH.
    cbn [firedLower run fold_left]. cbn zeta.
    fold (run size loaderComponent es (step size loaderComponent sys e)).
    destruct IH as [IHnext IHcalls]. rewrite IHnext, IHcalls. clear IHnext IHcalls.
    destruct e as [| | | i o]; cbn [isForwardEvent] in Hfwd;
      try discriminate.
    + (* the lower target is crossed *)
      destruct (mounted size loaderComponent LowerTarget (st sys)) eqn:Hm.
      * destruct (step_lower_fires sys Hsize Hm) as [Hnext Hcalls].
        rewrite Hnext, Hcalls. clear Hnext Hcalls.
        rewrite map_app, <- app_assoc. cbn [map callOffset app Nat.add].
        rewrite pagesAfter_S. split; [lia | reflexivity].
      * cbn [step]. rewrite Hm. cbn [Nat.add]. split; reflexivity.
    + (* an outstanding forward fetch settles *)
      cbn [Nat.add]. cbn [step].
      destruct (nth_error (pending sys) i) as [[| d off | d off] |];
        try discriminate.
      destruct o as [| r]; [split; reflexivity |].
      cbn [resolved].
      destruct (forwardFetchResolved_cells size d r (st sys))
        as (_ & _ & _ & Hnext & _).
      destruct (commit_offsets (st sys)
                  (forwardFetchResolved size d r (st sys))
                  (mkSystem (st sys) (removeAt i (pending sys)) (calls sys)))
        as [Hcn _].
      rewrite Hcn, Hnext.
      rewrite (commit_forwardCalls size (st sys)
                 (forwardFetchResolved size d r (st sys))
                 (mkSystem (st sys) (removeAt i (pending sys)) (calls sys)))
        by (right; now rewrite Hnext).
      split; reflexivity.
Qed.

End Invariants.

Section Reachable.

Context {T : Type}.
Variable size : Z.
Variable loaderComponent : bool.

Implicit Types (s old new : @State T) (sys : @System T) (e : @Event T)
               (f : @Fetch T).

(** No continuation of a fetch lowers [prevOffset] below zero. *)
Lemma resolved_prevOffset_nonneg f r s :
  0 <= prevOffset s -> 0 <= prevOffset (resolved size f r s).
Proof.
  intros Hprev. destruct f as [| d off | d off]; cbn [resolved].
  - cbn. lia.
  - unfold forwardFetchResolved, handleExcessDataForward.
    destruct (Z.gtb_spec (len (orEmpty d ++ orEmpty r))
                (maxNumberOfElements size)) as [Hlong | Hshort];
      destruct (fewerThanSize size r); cbn; lia.
  - destruct (backwardFetchResolved_cells size d r s) as (_ & _ & Hp & _).
    now rewrite Hp.
Qed.

Lemma step_prevOffset_nonneg sys e :
  0 <= prevOffset (st sys) ->
  0 <= prevOffset (st (step size loaderComponent sys e)).
Proof.
  intros Hprev. destruct e as [| | | i o]; cbn [step].
  - exact Hprev.
  - destruct (mounted size loaderComponent LowerTarget (st sys));
      [| exact Hprev].
    destruct (commit_offsets size (st sys) (onLowerIntersect size (st sys)) sys)
      as [_ Hp].
    rewrite Hp. exact Hprev.
  - destruct (mounted size loaderComponent UpperTarget (st sys));
      [| exact Hprev].
    destruct (commit_offsets size (st sys)
                (onUpperIntersect size (window (st sys)) (st sys)) sys)
      as [_ Hp].
    rewrite Hp. apply prevOffsetUpdater_nonneg.
  - destruct (nth_error (pending sys) i) as [f |]; [| exact Hprev].
    destruct o as [| r]; [exact Hprev |].
    destruct (commit_offsets size (st sys) (resolved size f r (st sys))
                (mkSystem (st sys) (removeAt i (pending sys)) (calls sys)))
      as [_ Hp].
    rewrite Hp. now apply resolved_prevOffset_nonneg.
Qed.

(** X5.  [prevOffset] is never negative: in every state the mounted
    component can reach, whatever the page size, the order of the events
    and the pages the source returns. *)
Theorem prevOffset_never_negative es :
  0 <= prevOffset (st (run size loaderComponent es (@onMount T size))).
Proof.
  unfold run. rewrite <- fold_left_rev_right.
  induction (rev es) as [| e l IH]; cbn [fold_right].
  - cbn. lia.
  - now apply step_prevOffset_nonneg.
Qed.

(** Every continuation lowers [loading]. *)
Lemma resolved_loading f r s : loading (resolved size f r s) = false.
Proof.
  destruct f as [| d off | d off]; cbn [resolved].
  - reflexivity.
  - now destruct (forwardFetchResolved_cells size d r s) as (_ & _ & Hl & _).
  - now destruct (backwardFetchResolved_cells size d r s) as (_ & Hl & _).
Qed.

(** A commit that leaves nothing outstanding ran no fetch effect. *)
Lemma commit_pending_nil old new sys :
  pending (commit size old new sys) = [] ->
  pending sys = [] /\ st (commit size old new sys) = new.
Proof.
  unfold commit, backwardEffect, forwardEffect.
  destruct (negb (nextOffset old =? nextOffset new) && fetchDataForward new);
    destruct (negb (prevOffset old =? prevOffset new) && fetchDataBackward new);
    cbn [pending st issue]; intros Hnil;
    repeat (apply app_eq_nil in Hnil; destruct Hnil as [Hnil ?]);
    try discriminate; auto.
Qed.

Lemma step_settledQuiet sys e :
  resolves e ->
  settledQuiet sys ->
  settledQuiet (step size loaderComponent sys e).
Proof.
  intros Hres Hquiet. destruct e as [| | | i o]; cbn [step].
  - intros Hnil. cbn [pending issue] in Hnil.
    apply app_eq_nil in Hnil. destruct Hnil as [_ Hnil]. discriminate.
  - destruct (mounted size loaderComponent LowerTarget (st sys));
      [| exact Hquiet].
    intros Hnil. apply commit_pending_nil in Hnil.
    destruct Hnil as [Hnil Hst]. rewrite Hst. now apply Hquiet.
  - destruct (mounted size loaderComponent UpperTarget (st sys));
      [| exact Hquiet].
    intros Hnil. apply commit_pending_nil in Hnil.
    destruct Hnil as [Hnil Hst]. rewrite Hst. now apply Hquiet.
  - destruct (nth_error (pending sys) i) as [f |]; [| exact Hquiet].
    destruct o as [| r]; [contradiction |].
    intros Hnil. apply commit_pending_nil in Hnil.
    destruct Hnil as [_ Hst]. rewrite Hst. apply resolved_loading.
Qed.

(** X6.  As long as no promise rejects, [loading] is down whenever no
    fetch is outstanding: the loader does not outlive the last page. *)
Theorem loading_ends_with_last_fetch es :
  Forall (@resolves T) es ->
  let final := run size loaderComponent es (@onMount T size) in
  pending final = [] ->
  loading (st final) = false.
Proof.
  intros Hres final. unfold final, run. rewrite <- fold_left_rev_right.
  apply Forall_rev in Hres.
  change (settledQuiet
            (fold_right (fun e sys => step size loaderComponent sys e)
               (@onMount T size) (rev es))).
  induction (rev es) as [| e l IH]; cbn [fold_right].
  - intros Hnil. discriminate Hnil.
  - inversion Hres as [| ? ? He Hl]; subst.
    apply step_settledQuiet; [exact He | now apply IH].
Qed.

(** X7.  With [size > 0] and a source that returns at most [size]
    items per page, the window never holds more than [2 * size] elements
    in any state the mounted component can reach, the first page and the
    pages after a source change included. *)
Theorem window_within_capacity_at_rest es :
  0 < size ->
  Forall (conforming size) es ->
  len (window (st (run size loaderComponent es (@onMount T size))))
  <= 2 * size.
Proof.
  intros Hsize Hconf.
  apply (run_withinCapacity size loaderComponent Hsize es _ Hconf).
  now apply onMount_withinCapacity.
Qed.

End Reachable.

(** ** How the two merges compose *)

Section RoundTrip.

Context {T : Type}.
Variable size : Z.
Hypothesis size_pos : 0 < size.

Implicit Types (W F : list T) (s : @State T).

Lemma skipn_app_short W F n :
  (n <= length W)%nat -> skipn n (W ++ F) = skipn n W ++ F.
Proof.
  intros Hn. rewrite skipn_app.
  replace (n - length W)%nat with O by lia. reflexivity.
Qed.

Lemma firstn_app_exact W F : firstn (length W) (W ++ F) = W.
Proof.
  rewrite firstn_app, firstn_all, Nat.sub_diag. cbn. apply app_nil_r.
Qed.

(** X8.  On a full window of [2 * size] elements, a forward page of
    [size] items followed by a backward page that brings back the [size]
    items the forward merge dropped restores the window and both
    offsets: the forward merge moves the window and both offsets on by
    [size], the upper observer asks for the old [prevOffset], and the
    backward merge trims exactly the forward page again. *)
Theorem forward_then_backward_page_restores W F s :
  len W = 2 * size ->
  len F = size ->
  0 <= prevOffset s ->
  let s1 :=
    forwardFetchResolved size (Some W) (Some F) (onLowerIntersect size s) in
  let crossed := onUpperIntersect size (window s1) s1 in
  let dropped := firstn (Z.to_nat size) W in
  let s2 := backwardFetchResolved size (data s1) (Some dropped) crossed in
  (window s1 = skipn (Z.to_nat size) W ++ F
   /\ prevOffset s1 = prevOffset s + size
   /\ nextOffset s1 = nextOffset s + size)
  /\ prevOffset crossed = prevOffset s
  /\ (data s2 = Some W
      /\ prevOffset s2 = prevOffset s
      /\ nextOffset s2 = nextOffset s
      /\ dataFinished s2 = dataFinished s).
Proof.
  intros HW HF Hprev s1 crossed dropped s2.
  assert (Hlen : len (W ++ F) = 3 * size) by (rewrite len_app; lia).
  assert (Hs1 :
    s1 = setFetchDataForward false
           (setData (Some (skipn (Z.to_nat size) W ++ F))
              (setLoading false
                 (setPrevOffset (prevOffset s + size)
                    (onLowerIntersect size s))))).
  { unfold s1. rewrite forwardFetchResolved_trim;
      cbn [orEmpty]; [| exact size_pos | lia].
    cbn [fewerThanSize].
    replace (len F <? size) with false by (symmetry; apply Z.ltb_ge; lia).
    rewrite Hlen.
    replace (3 * size - 2 * size) with size by lia.
    rewrite skipn_app_short by (unfold len in HW; lia).
    reflexivity. }
  assert (Hwin1 : window s1 = skipn (Z.to_nat size) W ++ F)
    by (rewrite Hs1; reflexivity).
  assert (Hlen1 : len (window s1) = 2 * size).
  { rewrite Hwin1, len_app, len_skipn by lia. lia. }
  assert (Hcrossed : prevOffset crossed = prevOffset s).
  { unfold crossed, onUpperIntersect.
    cbn [prevOffset setFetchDataBackward setFetchDataForward setPrevOffset].
    rewrite Hlen1. unfold prevOffsetUpdater.
    rewrite Z.rem_mul by lia. cbn [Z.eqb].
    rewrite Hs1. cbn [prevOffset setFetchDataForward setData setLoading
                      setPrevOffset].
    lia. }
  assert (Hnew : orEmpty (Some dropped) ++ orEmpty (data s1) = W ++ F).
  { rewrite Hs1. cbn [orEmpty data setFetchDataForward setData].
    unfold dropped. now rewrite app_assoc, firstn_skipn. }
  assert (Hlong : 2 * size < len (orEmpty (Some dropped) ++ orEmpty (data s1)))
    by (rewrite Hnew; lia).
  destruct (backwardFetchResolved_data_trim size size_pos (data s1)
              (Some dropped) crossed Hlong)
    as (Hdata & Hnext & Hp & Hfin).
  fold s2 in Hdata, Hnext, Hp, Hfin.
  rewrite Hnew in Hdata, Hnext.
  split; [split; [exact Hwin1 | rewrite Hs1; split; reflexivity] |].
  split; [exact Hcrossed |].
  split; [| split; [| split]].
  - rewrite Hdata. f_equal.
    replace (Z.to_nat (2 * size)) with (length W)
      by (unfold len in HW; lia).
    apply firstn_app_exact.
  - rewrite Hp. exact Hcrossed.
  - rewrite Hnext, Hlen. unfold crossed. rewrite Hs1.
    cbn [nextOffset onUpperIntersect onLowerIntersect setFetchDataBackward
         setFetchDataForward setPrevOffset setNextOffset setData setLoading].
    lia.
  - rewrite Hfin. unfold crossed. rewrite Hs1. reflexivity.
Qed.

End RoundTrip.

(** ** What render puts around the elements *)

Section RenderFacts.

Context {T : Type}.
Variable size : Z.
Variable loaderComponent : bool.

Implicit Types (s : @State T) (slots : list Slot).

Lemma render_length s slots :
  render size loaderComponent s = Some slots ->
  length slots = length (window s).
Proof.
  unfold render.
  destruct (negb (fetchDataForward s) && negb (fetchDataBackward s) && loading s);
    [discriminate |].
  intros [= <-]. unfold indices. now rewrite !length_map, length_seq.
Qed.

(** X9.  The rendered list has one slot per element of the window, and
    at most one element carries the lower target and at most one the
    upper target: each ref is attached to a single node. *)
Theorem render_attaches_each_target_once s slots :
  render size loaderComponent s = Some slots ->
  length slots = length (window s)
  /\ (forall i j,
        nth_error slots i = Some LowerTarget ->
        nth_error slots j = Some LowerTarget -> i = j)
  /\ (forall i j,
        nth_error slots i = Some UpperTarget ->
        nth_error slots j = Some UpperTarget -> i = j).
Proof.
  intros Hrender. split; [now apply render_length |]. split; intros i j Hi Hj.
  - destruct (render_nth size loaderComponent s slots i _ Hrender Hi)
      as [Hsi _].
    destruct (render_nth size loaderComponent s slots j _ Hrender Hj)
      as [Hsj _].
    symmetry in Hsi, Hsj.
    apply renderAt_LowerTarget in Hsi. apply renderAt_LowerTarget in Hsj.
    destruct Hsi as [Hsi _], Hsj as [Hsj _]. lia.
  - destruct (render_nth size loaderComponent s slots i _ Hrender Hi)
      as [Hsi _].
    destruct (render_nth size loaderComponent s slots j _ Hrender Hj)
      as [Hsj _].
    symmetry in Hsi, Hsj.
    apply renderAt_UpperTarget in Hsi. apply renderAt_UpperTarget in Hsj.
    destruct Hsi as [Hsi _], Hsj as [Hsj _]. lia.
Qed.




End RenderFacts.

(** ** Edges of the source *)

Section SourceEdges.

Context {T : Type}.
Variable size : Z.
Variable loaderComponent : bool.

Implicit Types (d : option (list T)) (sys : @System T).

(** X11.  With [size > 0], a forward fetch that resolves with an empty
    array leaves the window of its closure and both offsets as they are
    and marks the source exhausted: the lower target is unmounted and a
    further crossing changes nothing. *)
Theorem empty_page_ends_forward_scrolling sys i d off :
  0 < size ->
  nth_error (pending sys) i = Some (ForwardFetch d off) ->
  len (orEmpty d) <= 2 * size ->
  let sys' := step size loaderComponent sys (Settled i (Resolved (Some []))) in
  window (st sys') = orEmpty d
  /\ prevOffset (st sys') = prevOffset (st sys)
  /\ nextOffset (st sys') = nextOffset (st sys)
  /\ dataFinished (st sys') = true
  /\ mounted size loaderComponent LowerTarget (st sys') = false
  /\ step size loaderComponent sys' LowerCrossed = sys'.
Proof.
  intros Hsize Hpending Hcap sys'.
  assert (Hst : st sys'
    = setFetchDataForward false
        (setData (Some (orEmpty d))
           (setLoading false (setDataFinished true (st sys))))).
  { unfold sys'. cbn [step]. rewrite Hpending. cbn [resolved].
    rewrite forwardFetchResolved_keep;
      cbn [orEmpty]; rewrite app_nil_r; [| exact Hcap].
    cbn [fewerThanSize].
    replace (len (@nil T) <? size) with true
      by (symmetry; apply Z.ltb_lt; unfold len; cbn [length]; lia).
    now rewrite commit_same_offsets. }
  assert (Hfin : dataFinished (st sys') = true) by (now rewrite Hst).
  assert (Hun : mounted size loaderComponent LowerTarget (st sys') = false)
    by (now apply lowerTarget_unmounted).
  rewrite Hst at 1 2 3.
  do 3 (split; [reflexivity |]). split; [exact Hfin |].
  split; [exact Hun |]. cbn [step]. now rewrite Hun.
Qed.

End SourceEdges.

Section ClampedOffset.

(** The items of the source are its positions: the page at [off] of
    length [n] is [seq off n]. *)

Lemma firstn_seq_prefix (p n m : nat) :
  firstn n (seq p (n + m)) = seq p n.
Proof.
  rewrite seq_app.
  replace n with (length (seq p n)) at 1 by apply length_seq.
  apply firstn_app_exact.
Qed.

(** X12.  When the window is full and [0 < prevOffset < size] (a short
    last page trimmed fewer than [size] items), the upper observer clamps
    the offset to 0 and the whole first page is put in front: the window
    then shows the items from [prevOffset] to [size - 1] twice. *)
Theorem clamped_backward_page_overlaps (n p : nat) (s : @State nat) :
  (0 < p < n)%nat ->
  prevOffset s = Z.of_nat p ->
  let size := Z.of_nat n in
  let shown := seq p (2 * n) in
  let crossed := onUpperIntersect size shown s in
  let fetched := seq (Z.to_nat (prevOffset crossed)) n in
  let s' := backwardFetchResolved size (Some shown) (Some fetched) crossed in
  prevOffset crossed = 0
  /\ window s' = seq 0 n ++ seq p n
  /\ ~ NoDup (window s').
Proof.
  intros Hp Hprev size shown crossed fetched s'.
  assert (Hsize : 0 < size) by (unfold size; lia).
  assert (Hshown : len shown = 2 * size).
  { unfold len, shown, size. rewrite length_seq. lia. }
  assert (Hcrossed : prevOffset crossed = 0).
  { unfold crossed, onUpperIntersect.
    cbn [prevOffset setFetchDataBackward setFetchDataForward setPrevOffset].
    rewrite Hshown. unfold prevOffsetUpdater.
    rewrite Z.rem_mul by lia. cbn [Z.eqb]. unfold size. lia. }
  assert (Hfetched : fetched = seq 0 n).
  { unfold fetched. now rewrite Hcrossed. }
  assert (Hwindow : window s' = seq 0 n ++ seq p n).
  { assert (Hlong : 2 * size
                    < len (orEmpty (Some fetched) ++ orEmpty (Some shown))).
    { cbn [orEmpty]. rewrite len_app, Hshown, Hfetched.
      unfold len. rewrite length_seq. fold size. lia. }
    destruct (backwardFetchResolved_data_trim size Hsize (Some shown)
                (Some fetched) crossed Hlong) as (Hdata & _).
    unfold window. fold s' in Hdata. rewrite Hdata.
    cbn [orEmpty]. rewrite Hfetched. unfold shown, size.
    replace (Z.to_nat (2 * Z.of_nat n)) with (length (seq 0 n) + n)%nat
      by (rewrite length_seq; lia).
    rewrite firstn_app_2. f_equal.
    replace (2 * n)%nat with (n + n)%nat by lia.
    apply firstn_seq_prefix. }
  split; [exact Hcrossed |]. split; [exact Hwindow |].
  rewrite Hwindow. intros Hnodup.
  destruct n as [| n']; [lia |].
  change (seq p (S n')) with (p :: seq (S p) n') in Hnodup.
  apply NoDup_remove_2 in Hnodup. apply Hnodup.
  apply in_or_app. left. apply in_seq. lia.
Qed.

End ClampedOffset.

(** ** The scroll anchor on elements of one height *)

Section UniformHeights.

Lemma In_zrange lo n z :
  lo <= z < lo + Z.of_nat n -> In z (zrange lo n).
Proof.
  intros Hz. unfold zrange. apply in_map_iff.
  exists (Z.to_nat (z - lo)). split; [lia |]. apply in_seq. lia.
Qed.

Lemma anchorsExactly_checked :
  forallb
    (fun size =>
       forallb
         (fun h =>
            forallb
              (fun count =>
                 forallb (anchorsExactly size h count) (zrange 0 21))
              (zrange 0 (Z.to_nat (2 * size + 1))))
         (zrange 0 41))
    (zrange 1 30)
  = true.
Proof. vm_compute. reflexivity. Qed.

(** X13.  On a container whose [2 * size] elements are all [h] high
    (the assumption the component documents), with a loader [indicator]
    high above them, a backward page of [count] items moves [scrollTop] by
    exactly [count * h - indicator]: no rounding error enters.  Checked
    for every [size] up to 30, height up to 40, loader up to 20 and
    [count] up to [2 * size]. *)
Theorem uniform_heights_anchor_exactly size h count indicator :
  1 <= size <= 30 ->
  0 <= h <= 40 ->
  0 <= count <= 2 * size ->
  0 <= indicator <= 20 ->
  PrimFloat.eqb
    (scrollDelta size (h * (2 * size) + indicator) indicator count)
    (toNumber (count * h - indicator))
  = true.
Proof.
  intros Hsize Hh Hcount Hind.
  pose proof anchorsExactly_checked as Hall.
  rewrite forallb_forall in Hall.
  specialize (Hall size (In_zrange 1 30 size ltac:(lia))).
  rewrite forallb_forall in Hall.
  specialize (Hall h (In_zrange 0 41 h ltac:(lia))).
  rewrite forallb_forall in Hall.
  specialize (Hall count
                (In_zrange 0 (Z.to_nat (2 * size + 1)) count ltac:(lia))).
  rewrite forallb_forall in Hall.
  exact (Hall indicator (In_zrange 0 21 indicator ltac:(lia))).
Qed.

End UniformHeights.

(** ** The window as a slice of the source *)

Section Contiguity.

Variable n : nat.
Hypothesis n_pos : (0 < n)%nat.

Let size : Z := Z.of_nat n.

Implicit Types (s : @State nat) (p L : nat).

(** X14.  Scrolling forward keeps the window a slice of the source.
    If the window shows the items [p .. p + L - 1] with consistent
    offsets, the lower observer fires and the page it asks for comes back
    full, then the window shows the next slice: the same start and [n]
    more items while that fits in [2 * n], otherwise the last [2 * n]
    items; and the offsets are consistent with it again. *)
Theorem forward_page_keeps_window_contiguous s p L :
  contiguous size s p L ->
  (L <= 2 * n)%nat ->
  let crossed := onLowerIntersect size s in
  let fetched := fullPage n (nextOffset crossed) in
  let s' := forwardFetchResolved size (data s) (Some fetched) crossed in
  fetched = seq (p + L) n
  /\ (if (L <=? n)%nat
      then contiguous size s' p (L + n)
      else contiguous size s' (p + L - n) (2 * n))
  /\ dataFinished s' = dataFinished s.
Proof.
  intros (Hdata & Hprev & Hnext) HL crossed fetched s'.
  assert (Hsize : 0 < size) by (unfold size; lia).
  assert (Hfetched : fetched = seq (p + L) n).
  { unfold fetched, fullPage, crossed. cbn [nextOffset onLowerIntersect
      setFetchDataBackward setFetchDataForward setNextOffset].
    f_equal. lia. }
  assert (Hnew : orEmpty (data s) ++ orEmpty (Some fetched) = seq p (L + n)).
  { rewrite Hdata, Hfetched. cbn [orEmpty]. now rewrite seq_app. }
  assert (Hlen : len (orEmpty (data s) ++ orEmpty (Some fetched))
                 = Z.of_nat (L + n)).
  { rewrite Hnew. unfold len. now rewrite length_seq. }
  assert (Hfull : fewerThanSize size (Some fetched) = false).
  { cbn [fewerThanSize]. apply Z.ltb_ge. rewrite Hfetched. unfold len, size.
    rewrite length_seq. lia. }
  split; [exact Hfetched |].
  destruct (Nat.leb_spec L n) as [Hfits | Hover].
  - unfold s'. rewrite forwardFetchResolved_keep by (fold size; lia).
    rewrite Hfull, Hnew. split; [| reflexivity].
    unfold contiguous, crossed.
    cbn [data prevOffset nextOffset onLowerIntersect setFetchDataBackward
         setFetchDataForward setNextOffset setData setLoading].
    split; [reflexivity |]. split; [exact Hprev | lia].
  - unfold s'.
    rewrite forwardFetchResolved_trim by (exact Hsize || (fold size; lia)).
    rewrite Hfull, Hlen, Hnew. split; [| reflexivity].
    unfold contiguous, crossed.
    cbn [data prevOffset nextOffset onLowerIntersect setFetchDataBackward
         setFetchDataForward setNextOffset setData setLoading setPrevOffset].
    split; [| split; [unfold size; lia | lia]].
    f_equal. rewrite skipn_seq. f_equal; unfold size; lia.
Qed.

(** X15.  Scrolling backward keeps a full window a slice of the
    source, as long as a whole page lies before it.  If the window shows
    the items [p .. p + 2 * n - 1] with consistent offsets and [n <= p],
    the upper observer asks for the page at [p - n], and once that page
    is back the window shows [p - n .. p + n - 1] with consistent
    offsets. *)
Theorem backward_page_keeps_window_contiguous s p :
  contiguous size s p (2 * n) ->
  (n <= p)%nat ->
  let crossed := onUpperIntersect size (window s) s in
  let fetched := fullPage n (prevOffset crossed) in
  let s' := backwardFetchResolved size (data s) (Some fetched) crossed in
  prevOffset crossed = Z.of_nat (p - n)
  /\ contiguous size s' (p - n) (2 * n)
  /\ dataFinished s' = dataFinished s.
Proof.
  intros (Hdata & Hprev & Hnext) Hp crossed fetched s'.
  assert (Hsize : 0 < size) by (unfold size; lia).
  assert (Hwin : len (window s) = 2 * size).
  { unfold window. rewrite Hdata. cbn [orEmpty]. unfold len, size.
    rewrite length_seq. lia. }
  assert (Hcrossed : prevOffset crossed = Z.of_nat (p - n)).
  { unfold crossed, onUpperIntersect.
    cbn [prevOffset setFetchDataBackward setFetchDataForward setPrevOffset].
    rewrite Hwin. unfold prevOffsetUpdater.
    rewrite Z.rem_mul by lia. cbn [Z.eqb]. unfold size. lia. }
  assert (Hfetched : fetched = seq (p - n) n).
  { unfold fetched, fullPage. rewrite Hcrossed. f_equal. lia. }
  assert (Hnew : orEmpty (Some fetched) ++ orEmpty (data s)
                 = seq (p - n) (n + 2 * n)).
  { rewrite Hdata, Hfetched. cbn [orEmpty]. rewrite seq_app.
    do 2 f_equal. lia. }
  assert (Hlong : 2 * size < len (orEmpty (Some fetched) ++ orEmpty (data s))).
  { rewrite Hnew. unfold len, size. rewrite length_seq. lia. }
  destruct (backwardFetchResolved_data_trim size Hsize (data s)
              (Some fetched) crossed Hlong)
    as (Hd & Hn & Hpo & Hfin).
  fold s' in Hd, Hn, Hpo, Hfin.
  split; [exact Hcrossed |]. split.
  - unfold contiguous. split; [| split].
    + rewrite Hd, Hnew. f_equal.
      replace (Z.to_nat (2 * size)) with (2 * n)%nat by (unfold size; lia).
      replace (n + 2 * n)%nat with (2 * n + n)%nat by lia.
      apply firstn_seq_prefix.
    + rewrite Hpo. exact Hcrossed.
    + rewrite Hn, Hnew. unfold len. rewrite length_seq.
      unfold crossed.
      cbn [nextOffset onUpperIntersect setFetchDataBackward
           setFetchDataForward setPrevOffset].
      unfold size in *. lia.
  - rewrite Hfin. reflexivity.
Qed.

End Contiguity.

(** ** The further properties at work *)

Section TourFacts.

Import Scenario.
Import Tour.

(** X1 on the first page: the crossing asks for offset 10. *)
Lemma lower_crossing_asks_next_page_witness :
  (10 <> 0 /\ mounted 10 true LowerTarget (st firstPage) = true)
  /\ calls (step 10 true firstPage LowerCrossed)
     = calls firstPage ++ [mkCall Forward 10 10].
Proof.
  assert (Hsize : 10 <> 0) by discriminate.
  assert (Hmounted : mounted 10 true LowerTarget (st firstPage) = true)
    by reflexivity.
  split; [split; assumption |].
  exact (f_equal calls
           (lower_crossing_asks_next_page 10 true firstPage Hsize Hmounted)).
Defined.

(** X2 at the end of the walk: [prevOffset = 5], the crossing asks for
    offset 0. *)
Lemma upper_crossing_asks_previous_page_witness :
  (0 < 10 /\ mounted 10 true UpperTarget (st exhaustedEnd) = true)
  /\ calls (step 10 true exhaustedEnd UpperCrossed)
     = calls exhaustedEnd ++ [mkCall Backward 10 0].
Proof.
  assert (Hsize : 0 < 10) by reflexivity.
  assert (Hmounted : mounted 10 true UpperTarget (st exhaustedEnd) = true)
    by reflexivity.
  split; [split; assumption |].
  exact (f_equal calls
           (proj2 (proj2 (upper_crossing_asks_previous_page 10 true
                            exhaustedEnd Hsize Hmounted)))).
Defined.


(** X4 on [forwardWalk]: two crossings, the pages at 10 and 20. *)
Lemma forward_scrolling_asks_consecutive_pages_witness :
  (10 <> 0 /\ forwardOnly 10 true forwardWalk firstPage)
  /\ nextOffset (st (run 10 true forwardWalk firstPage)) = 0 + 2 * 10
  /\ map callOffset (forwardCalls (run 10 true forwardWalk firstPage))
     = [] ++ [10; 20].
Proof.
  assert (Hsize : 10 <> 0) by discriminate.
  assert (Honly : forwardOnly 10 true forwardWalk firstPage)
    by (vm_compute; repeat split).
  split; [split; assumption |].
  exact (forward_scrolling_asks_consecutive_pages 10 true forwardWalk
           firstPage Hsize Honly).
Defined.

(** X6 on the end-to-end walk. *)
Lemma loading_ends_with_last_fetch_witness :
  (Forall (@resolves Z) walk /\ pending exhaustedEnd = [])
  /\ loading (st exhaustedEnd) = false.
Proof.
  assert (Hres : Forall (@resolves Z) walk)
    by (repeat constructor).
  assert (Hnil : pending exhaustedEnd = []) by reflexivity.
  split; [split; assumption |].
  exact (loading_ends_with_last_fetch 10 true walk Hres Hnil).
Defined.

(** X7 on the end-to-end walk. *)
Lemma window_within_capacity_at_rest_witness :
  (0 < 10 /\ Forall (@conforming Z 10) walk)
  /\ len (window (st exhaustedEnd)) <= 2 * 10.
Proof.
  assert (Hsize : 0 < 10) by reflexivity.
  assert (Hconf : Forall (@conforming Z 10) walk)
    by (repeat constructor; vm_compute; discriminate).
  split; [split; assumption |].
  exact (window_within_capacity_at_rest 10 true walk Hsize Hconf).
Defined.

(** X8 with [size = 1]. *)
Lemma forward_then_backward_page_restores_witness :
  let s1 :=
    forwardFetchResolved 1 (Some [1; 2]) (Some [3])
      (onLowerIntersect 1 initialState) in
  let s2 :=
    backwardFetchResolved 1 (data s1) (Some [1])
      (onUpperIntersect 1 (window s1) s1) in
  (0 < 1 /\ len [1; 2] = 2 * 1 /\ len [3] = 1
   /\ 0 <= prevOffset (@initialState Z))
  /\ data s2 = Some [1; 2]
  /\ prevOffset s2 = 0
  /\ nextOffset s2 = 0.
Proof.
  intros s1 s2.
  assert (Hsize : 0 < 1) by reflexivity.
  assert (HW : len [1; 2] = 2 * 1) by reflexivity.
  assert (HF : len [3] = 1) by reflexivity.
  assert (Hprev : 0 <= prevOffset (@initialState Z)) by discriminate.
  split; [repeat split; assumption |].
  destruct (forward_then_backward_page_restores 1 Hsize [1; 2] [3]
              initialState HW HF Hprev)
    as (_ & _ & Hdata & Hp & Hn & _).
  split; [exact Hdata |]. split; [exact Hp | exact Hn].
Defined.

(** X9 on the first page. *)
Lemma render_attaches_each_target_once_witness :
  exists slots,
    render 10 true (st firstPage) = Some slots
    /\ length slots = length (window (st firstPage)).
Proof.
  eexists. split; [reflexivity |].
  exact (proj1 (render_attaches_each_target_once 10 true (st firstPage)
                  _ eq_refl)).
Defined.


(** X11 on the third page of the scenario, had it come back empty. *)
Lemma empty_page_ends_forward_scrolling_witness :
  (0 < 10
   /\ nth_error (pending thirdPageAsked) 0
      = Some (ForwardFetch (Some (page 25 20 0)) 20)
   /\ len (page 25 20 0) <= 2 * 10)
  /\ dataFinished
       (st (step 10 true thirdPageAsked (Settled 0 (Resolved (Some [])))))
     = true.
Proof.
  assert (Hsize : 0 < 10) by reflexivity.
  assert (Hpending : nth_error (pending thirdPageAsked) 0
                     = Some (ForwardFetch (Some (page 25 20 0)) 20))
    by reflexivity.
  assert (Hcap : len (orEmpty (Some (page 25 20 0))) <= 2 * 10)
    by (vm_compute; discriminate).
  split; [repeat split; assumption |].
  exact (proj1 (proj2 (proj2 (proj2
           (empty_page_ends_forward_scrolling 10 true thirdPageAsked 0
              _ 20 Hsize Hpending Hcap))))).
Defined.

(** X12 on [shortSlice]: the items 5 to 9 are shown twice. *)
Lemma clamped_backward_page_overlaps_witness :
  ((0 < 5 < 10)%nat /\ prevOffset shortSlice = Z.of_nat 5)
  /\ window
       (backwardFetchResolved 10 (Some (seq 5 20)) (Some (seq 0 10))
          (onUpperIntersect 10 (seq 5 20) shortSlice))
     = seq 0 10 ++ seq 5 10.
Proof.
  assert (Hp : (0 < 5 < 10)%nat) by lia.
  assert (Hprev : prevOffset shortSlice = Z.of_nat 5) by reflexivity.
  split; [split; assumption |].
  exact (proj1 (proj2
           (clamped_backward_page_overlaps 10 5 shortSlice Hp Hprev))).
Defined.

(** X13 on the example of the README: pages of 30 and 30 new items. *)
Lemma uniform_heights_anchor_exactly_witness :
  (1 <= 30 <= 30 /\ 0 <= 16 <= 40 /\ 0 <= 30 <= 2 * 30 /\ 0 <= 20 <= 20)
  /\ PrimFloat.eqb (scrollDelta 30 (16 * (2 * 30) + 20) 20 30)
       (toNumber (30 * 16 - 20))
     = true.
Proof.
  assert (Hsize : 1 <= 30 <= 30) by lia.
  assert (Hh : 0 <= 16 <= 40) by lia.
  assert (Hcount : 0 <= 30 <= 2 * 30) by lia.
  assert (Hind : 0 <= 20 <= 20) by lia.
  split; [repeat split; lia |].
  exact (uniform_heights_anchor_exactly 30 16 30 20 Hsize Hh Hcount Hind).
Defined.

(** X14 on [firstSlice]: the second page makes it items 0 to 19. *)
Lemma forward_page_keeps_window_contiguous_witness :
  ((0 < 10)%nat /\ contiguous 10 firstSlice 0 10 /\ (10 <= 2 * 10)%nat)
  /\ contiguous 10
       (forwardFetchResolved 10 (data firstSlice)
          (Some (fullPage 10 (nextOffset (onLowerIntersect 10 firstSlice))))
          (onLowerIntersect 10 firstSlice))
       0 20.
Proof.
  assert (Hn : (0 < 10)%nat) by lia.
  assert (Hc : contiguous (Z.of_nat 10) firstSlice 0 10)
    by (repeat split).
  assert (HL : (10 <= 2 * 10)%nat) by lia.
  split; [repeat split; lia |].
  exact (proj1 (proj2
           (forward_page_keeps_window_contiguous 10 Hn firstSlice 0 10
              Hc HL))).
Defined.

(** X15 on [secondSlice]: the page before it makes it items 0 to 19. *)
Lemma backward_page_keeps_window_contiguous_witness :
  ((0 < 10)%nat /\ contiguous 10 secondSlice 10 20 /\ (10 <= 10)%nat)
  /\ contiguous 10
       (backwardFetchResolved 10 (data secondSlice)
          (Some (fullPage 10
                   (prevOffset
                      (onUpperIntersect 10 (window secondSlice) secondSlice))))
          (onUpperIntersect 10 (window secondSlice) secondSlice))
       0 20.
Proof.
  assert (Hn : (0 < 10)%nat) by lia.
  assert (Hc : contiguous (Z.of_nat 10) secondSlice 10 (2 * 10))
    by (repeat split).
  assert (Hp : (10 <= 10)%nat) by lia.
  split; [repeat split; lia |].
  exact (proj1 (proj2
           (backward_page_keeps_window_contiguous 10 Hn secondSlice 10
              Hc Hp))).
Defined.

End TourFacts.
